(** * lyncs_io.mpi_io: domain decomposition and the MPI-IO channel

    A shallow embedding of [src/lyncs_io/mpi_io.py] (classes [MpiIO],
    [Decomposition], [Cartesian]), of [load], [save] and
    [_write_array_header] of [src/lyncs_io/numpy.py] and of [find_file] of
    [src/lyncs_io/utils.py], followed by the properties of the partitioning
    algorithm, of the channel and of the header layout.

    Python objects are modelled by the type [value]; exceptions by the type
    [exception] (the class only, the message is dropped); a Python function
    that can raise returns a [result].  Calls into mpi4py are recorded in a
    trace of [mpi_call]s and their outcomes are supplied by an [MPI_env]. *)

From Stdlib Require Import ZArith Lia String Ascii List Bool.
From stdpp Require Import base option list gmap sorting.

Local Open Scope Z_scope.

(** ** Python values, exceptions, results *)

Inductive exception :=
  | ValueError
  | TypeError
  | ZeroDivisionError
  | OverflowError
  | IndexError
  | KeyError
  | AttributeError
  | NotImplementedError
  | MPIException.

Inductive result (A : Type) :=
  | Ok (a : A)
  | Raise (e : exception).
Arguments Ok {A} a.
Arguments Raise {A} e.

Definition bind {A B} (m : result A) (k : A -> result B) : result B :=
  match m with
  | Ok a => k a
  | Raise e => Raise e
  end.

Notation "x <- m ;; k" := (bind m (fun x => k))
  (at level 20, m at level 99, k at level 200, only parsing).
Notation "' pat <- m ;; k" := (bind m (fun x => match x with pat => k end))
  (at level 20, pat pattern, m at level 99, k at level 200, only parsing).

Definition is_Ok {A} (r : result A) : bool :=
  match r with Ok _ => true | Raise _ => false end.

(** The objects that reach the decomposition code: Python integers
    (unbounded), [None], and strings as the representative of the objects
    that are not integers. *)
Inductive value :=
  | VInt (z : Z)
  | VNone
  | VStr (s : string).

Definition is_None (v : value) : bool :=
  match v with VNone => true | _ => false end.

(** [isinstance(v, int)] *)
Definition isinstance_int (v : value) : bool :=
  match v with VInt _ => true | _ => false end.

(** [a < b]: integers compare by value, strings lexicographically, every
    other pairing raises [TypeError]. *)
Definition py_lt (a b : value) : result bool :=
  match a, b with
  | VInt x, VInt y => Ok (x <? y)
  | VStr s, VStr t => Ok (String.ltb s t)
  | _, _ => Raise TypeError
  end.

(** [l[i]] for a list and a non-negative index; out of range raises
    [IndexError]. *)
Definition getitem {A} (l : list A) (i : nat) : result A :=
  match l !! i with
  | Some x => Ok x
  | None => Raise IndexError
  end.

(** [l[i] = x] for a list and a non-negative index; out of range raises
    [IndexError]. *)
Definition setitem {A} (l : list A) (i : nat) (x : A) : result (list A) :=
  if decide (i < length l)%nat then Ok (<[i:=x]> l) else Raise IndexError.

(** ** Python's [int / int] and [int(float)]

    [a / b] on two Python integers is true division.  CPython computes it
    from the integers themselves, not from their conversions to float: the
    result is the exact quotient rounded to the nearest binary64 number,
    ties to even; a zero divisor raises [ZeroDivisionError] and a result
    too large for a float raises [OverflowError].  A finite binary64 number
    is kept as [mant * 2 ^ expo] with [|mant| <= 2^53] and [expo >= -1074]. *)

Record float := { mant : Z; expo : Z }.

(** numerator and denominator of [x / (y * 2^e)] *)
Definition scale (x y e : Z) : Z * Z :=
  if 0 <=? e then (x, y * 2 ^ e) else (x * 2 ^ (- e), y).

Definition round_half_even (num den : Z) : Z :=
  let q := num / den in
  let r := num mod den in
  match 2 * r ?= den with
  | Lt => q
  | Eq => if Z.even q then q else q + 1
  | Gt => q + 1
  end.

(** the [d] with [2^d <= x / y < 2^(d+1)], for positive [x] and [y] *)
Definition quotient_exponent (x y : Z) : Z :=
  let d := Z.log2 x - Z.log2 y in
  let '(n, dn) := scale x y d in
  if dn <=? n then d else d - 1.

(** [a / b]: 53 significant bits for a normal result, multiples of
    [2^-1074] in the subnormal range, [OverflowError] from [2^1024] on. *)
Definition true_divide (a b : Z) : result float :=
  if b =? 0 then Raise ZeroDivisionError
  else if a =? 0 then Ok {| mant := 0; expo := 0 |}
  else
    let x := Z.abs a in
    let y := Z.abs b in
    let e := Z.max (quotient_exponent x y - 52) (-1074) in
    let '(n, d) := scale x y e in
    let m := round_half_even n d in
    if (0 <=? e) && (2 ^ 1024 <=? m * 2 ^ e) then Raise OverflowError
    else Ok {| mant := Z.sgn a * Z.sgn b * m; expo := e |}.

(** [int(f)]: truncation towards zero *)
Definition int_of_float (f : float) : Z :=
  if 0 <=? expo f then mant f * 2 ^ expo f
  else Z.quot (mant f) (2 ^ (- expo f)).

(** ** class Decomposition *)

Module Decomposition.

(** [self.size = comm.Get_size()], [self.rank = comm.Get_rank()] *)
Record t := { size : Z; rank : Z }.

(** [if not isinstance(v, int): raise ValueError(...)]; past the check the
    object is an integer *)
Definition expect_int (v : value) : result Z :=
  match v with
  | VInt z => Ok z
  | _ => Raise ValueError
  end.

(** [part = int(load / workers)] *)
Definition base_share (load workers : Z) : result Z :=
  q <- true_divide load workers;;
  Ok (int_of_float q).

Definition __split_work (load workers id : value) : result (Z * Z) :=
  load <- expect_int load;;
  workers <- expect_int workers;;
  id <- expect_int id;;
  part <- base_share load workers;;
  let rem := load - part * workers in
  if workers - rem <=? id then
    let part := part + 1 in
    let low := part * id - (workers - rem) in
    let hi := part * (1 + id) - (workers - rem) in
    Ok (low, hi)
  else
    let low := part * id in
    let hi := part * (1 + id) in
    Ok (low, hi).

Definition decompose (self : t) (domain : list value) (workers id : value)
  : result (list value * list value * list value) :=
  let size_ := domain in
  let subsize := domain in
  let start := replicate (length domain) (VInt 0) in
  let '(workers, id) :=
    if is_None workers || is_None id then (VInt (size self), VInt (rank self))
    else (workers, id) in
  size0 <- getitem size_ 0;;
  too_small <- py_lt size0 workers;;
  if too_small then Raise ValueError
  else
    '(low, hi) <- __split_work size0 workers id;;
    subsize <- setitem subsize 0 (VInt (hi - low));;
    start <- setitem start 0 (VInt low);;
    Ok (size_, subsize, start).

End Decomposition.

(** ** The Partitioner of the specification

    The split as the specification words it, on exact integers: the base
    share is the integer quotient, the remainder goes to the last [rem]
    workers, the bounds are the prefix sums of the shares in closed form. *)

Module Partitioner.

Definition part (load workers : Z) : Z := load / workers.

Definition rem (load workers : Z) : Z := load - part load workers * workers.

Definition share (load workers id : Z) : Z :=
  if workers - rem load workers <=? id then part load workers + 1
  else part load workers.

Definition split (load workers id : Z) : Z * Z :=
  let part := part load workers in
  let rem := rem load workers in
  if workers - rem <=? id then
    ((part + 1) * id - (workers - rem), (part + 1) * (1 + id) - (workers - rem))
  else
    (part * id, part * (1 + id)).

Definition low (load workers id : Z) : Z := fst (split load workers id).
Definition hi (load workers id : Z) : Z := snd (split load workers id).

(** the shares of the workers [0 .. n-1], added up *)
Fixpoint total (load workers : Z) (n : nat) : Z :=
  match n with
  | O => 0
  | S n => total load workers n + share load workers (Z.of_nat n)
  end.

End Partitioner.

(** ** class Cartesian(Decomposition) *)

Module Cartesian.

(** [self.dims = MPI.Compute_dims(self.size, comm.Get_dim())] and
    [self.coords = self.comm.Get_coords(self.rank)] are lists of integers
    supplied by MPI. *)
Record t := { base : Decomposition.t; dims : list Z; coords : list Z }.

(** [for i in idx: s = body(i, s)] *)
Fixpoint for_each {S} (idx : list nat) (body : nat -> S -> result S) (s : S)
  : result S :=
  match idx with
  | [] => Ok s
  | i :: idx => s <- body i s;; for_each idx body s
  end.

(** the body of the loop over [dim]; the state is [(subsizes, starts)] *)
Definition axis_step (self : t) (domain : list value) (dim : nat)
    (state : list value * list value) : result (list value * list value) :=
  let '(subsizes, starts) := state in
  d <- getitem domain dim;;
  workers <- getitem (dims self) dim;;
  id <- getitem (coords self) dim;;
  '(_, ssz, st) <- Decomposition.decompose (base self) [d] (VInt workers) (VInt id);;
  ssz0 <- getitem ssz 0;;
  st0 <- getitem st 0;;
  subsizes <- setitem subsizes dim ssz0;;
  starts <- setitem starts dim st0;;
  Ok (subsizes, starts).

Definition decompose (self : t) (domain : list value)
  : result (list value * list value * list value) :=
  let sizes := domain in
  let subsizes := domain in
  let starts := replicate (length domain) (VInt 0) in
  '(subsizes, starts) <-
    for_each (seq 0 (length (dims self))) (axis_step self domain) (subsizes, starts);;
  Ok (sizes, subsizes, starts).

End Cartesian.

(** ** The CartesianDecomposition of the specification

    Axis by axis, outermost first: each grid axis takes the matching domain
    axis through the Partitioner-based decomposition with
    [workers = dims[d]] and [id = coords[d]]; the domain axes that are left
    when the grid axes are used up pass through. *)

Module CartesianDecomposition.

(** one axis: the check of the extent against the workers, then the
    split; the result is [(local size, local start)] *)
Definition axis (extent : value) (workers id : Z) : result (value * value) :=
  too_small <- py_lt extent (VInt workers);;
  if too_small then Raise ValueError
  else
    '(low, hi) <- Decomposition.__split_work extent (VInt workers) (VInt id);;
    Ok (VInt (hi - low), VInt low).

Fixpoint axes (domain : list value) (dims coords : list Z) {struct dims}
  : result (list value * list value) :=
  match dims with
  | [] => Ok (domain, replicate (length domain) (VInt 0))
  | workers :: dims =>
      match domain, coords with
      | extent :: domain, id :: coords =>
          '(ssz, st) <- axis extent workers id;;
          '(subsizes, starts) <- axes domain dims coords;;
          Ok (ssz :: subsizes, st :: starts)
      | _, _ => Raise IndexError
      end
  end.

Definition decompose (dims coords : list Z) (domain : list value)
  : result (list value * list value * list value) :=
  '(subsizes, starts) <- axes domain dims coords;;
  Ok (domain, subsizes, starts).

(** every grid axis has an integer extent below [2^53] that gives each
    of its workers at least one unit *)
Fixpoint grid_fits (domain : list value) (dims : list Z) {struct dims} : bool :=
  match dims with
  | [] => true
  | workers :: dims =>
      match domain with
      | VInt extent :: domain =>
          (0 <? workers) && (workers <=? extent) && (extent <? 2 ^ 53)
          && grid_fits domain dims
      | _ => false
      end
  end.

(** the brick of the worker at [coords]: per grid axis the Partitioner's
    share and start, the remaining axes whole *)
Fixpoint brick (domain : list value) (dims coords : list Z) {struct dims}
  : list value * list value :=
  match dims, coords, domain with
  | workers :: dims, id :: coords, VInt extent :: domain =>
      let '(subsizes, starts) := brick domain dims coords in
      (VInt (Partitioner.share extent workers id) :: subsizes,
       VInt (Partitioner.low extent workers id) :: starts)
  | _, _, _ => (domain, replicate (length domain) (VInt 0))
  end.

(** does the brick [(subsizes, starts)] contain the cell? *)
Fixpoint contains (subsizes starts : list value) (cell : list Z) : bool :=
  match subsizes, starts, cell with
  | [], [], [] => true
  | VInt n :: subsizes, VInt s :: starts, c :: cell =>
      (s <=? c) && (c <? s + n) && contains subsizes starts cell
  | _, _, _ => false
  end.

Definition owns (r : result (list value * list value * list value))
    (cell : list Z) : bool :=
  match r with
  | Ok (_, subsizes, starts) => contains subsizes starts cell
  | Raise _ => false
  end.

End CartesianDecomposition.

(** the four workers of a 2 x 2 process grid: rank and grid coordinates *)
Definition grid_2x2 : list Cartesian.t :=
  map (fun '(r, c) =>
         {| Cartesian.base := {| Decomposition.size := 4; Decomposition.rank := r |};
            Cartesian.dims := [2; 2];
            Cartesian.coords := c |})
      [(0, [0; 0]); (1, [0; 1]); (2, [1; 0]); (3, [1; 1])].

(** ** mpi4py and numpy as seen from [MpiIO] *)

(** handles of [MPI.File] and [MPI.Datatype] objects *)
Definition File := nat.
Definition Datatype := nat.

(** A number that is not a Python [int] (a float, a numpy integer), known
    by a handle: its arithmetic belongs to its own type. *)
Definition number := nat.

(** The objects given as [header_offset]: the objects of [value], or a
    number of another type.  An object of [value] is read as one of these
    where an offset is expected. *)
Inductive offset_arg :=
  | OfValue (v : value)
  | OtherNumber (x : number).

Coercion OfValue : value >-> offset_arg.

(** the position handed to [Set_view]: a Python integer, or a number of
    another type when the offset was one *)
Inductive position_obj :=
  | IntPosition (z : Z)
  | NumberPosition (x : number).

(** The attributes of the module [mpi4py.MPI] that [mpi_io.py] reads.  Their
    values belong to the MPI library and are parameters here.  [_typedict]
    and [__TypeDict__] are [None] when the module has no such attribute. *)
Record MPI_module := {
  MODE_RDONLY : Z;
  MODE_RDWR : Z;
  MODE_WRONLY : Z;
  MODE_CREATE : Z;
  MODE_EXCL : Z;
  MODE_DELETE_ON_CLOSE : Z;
  MODE_UNIQUE_OPEN : Z;
  MODE_SEQUENTIAL : Z;
  MODE_APPEND : Z;
  ORDER_C : Z;
  _typedict : option (ascii -> option Datatype);
  __TypeDict__ : option (ascii -> option Datatype)
}.

(** the [dtype] argument of [load]: an object of a numpy type, with
    [numpy.dtype(t).char], or an object of any other module *)
Inductive dtype_arg :=
  | NumpyType (char : ascii)
  | ForeignType.

Record ndarray := {
  shape : list value;
  dtype : dtype_arg;
  order : string;
  data : list Z
}.

(** the calls that leave the program *)
Inductive mpi_call :=
  | Call_File_Open (filename : string) (amode : Z)
  | Call_Create_subarray (etype : Datatype) (sizes subsizes starts : list value) (order : Z)
  | Call_Commit (filetype : Datatype)
  | Call_Get_position (fh : File)
  | Call_Set_view (fh : File) (pos : position_obj) (etype filetype : Datatype)
  | Call_Read_all (fh : File) (buffer : ndarray)
  | Call_Close (fh : File).


(** What the external calls answer, as a function of the calls made so
    far; each of them can raise.  [numpy_empty] is
    [numpy.empty(shape, dtype, order)], and [radd a x] is [a + x] for an
    integer [a] and a number [x] of another type, as the type of [x]
    computes it ([x.__radd__(a)]). *)
Record MPI_env := {
  File_Open : list mpi_call -> string -> Z -> result File;
  Create_subarray :
    list mpi_call -> Datatype -> list value -> list value -> list value -> Z -> result Datatype;
  Commit : list mpi_call -> Datatype -> result unit;
  Get_position : list mpi_call -> File -> result Z;
  Set_view : list mpi_call -> File -> position_obj -> Datatype -> Datatype -> result unit;
  Read_all : list mpi_call -> File -> ndarray -> result ndarray;
  Close : list mpi_call -> File -> result unit;
  numpy_empty : list value -> dtype_arg -> string -> result ndarray;
  radd : Z -> number -> result number
}.

(** [str.upper()] on ASCII text *)
Definition upper_ascii (c : ascii) : ascii :=
  let n := nat_of_ascii c in
  if (97 <=? n)%nat && (n <=? 122)%nat then ascii_of_nat (n - 32) else c.

Fixpoint upper (s : string) : string :=
  match s with
  | EmptyString => EmptyString
  | String c s => String (upper_ascii c) (upper s)
  end.

(** [a + b] with an integer on the left: the integer sum for an integer;
    for a number of another type the sum that this type computes; [None]
    and a string are refused by both operands, which is a [TypeError]. *)
Definition py_add (radd : Z -> number -> result number) (a : Z) (b : offset_arg)
  : result position_obj :=
  match b with
  | OfValue (VInt z) => Ok (IntPosition (a + z))
  | OfValue VNone | OfValue (VStr _) => Raise TypeError
  | OtherNumber x => sum <- radd a x;; Ok (NumberPosition sum)
  end.

(** ** class MpiIO *)

Module MpiIO.

(** [self.decomposition] is a [Cartesian] for a [Cartcomm] and a
    [Decomposition] otherwise *)
Inductive decomposition_obj :=
  | Linear (d : Decomposition.t)
  | Cart (c : Cartesian.t).

Record t := {
  decomposition : decomposition_obj;
  filename : string;
  handler : option File
}.

Definition set_handler (self : t) (h : option File) : t :=
  {| decomposition := decomposition self; filename := filename self; handler := h |}.

(** A method runs on the object and the calls made so far; it returns
    its outcome together with the object and the calls afterwards, also
    when it raises. *)
Definition io (A : Type) : Type := t * list mpi_call -> result A * (t * list mpi_call).

Definition ret {A} (a : A) : io A := fun s => (Ok a, s).

Definition lift {A} (r : result A) : io A := fun s => (r, s).

Definition iobind {A B} (m : io A) (k : A -> io B) : io B :=
  fun s =>
    match m s with
    | (Ok a, s') => k a s'
    | (Raise e, s') => (Raise e, s')
    end.

Notation "x <~ m ;; k" := (iobind m (fun x => k))
  (at level 20, m at level 99, k at level 200, only parsing).
Notation "' pat <~ m ;; k" := (iobind m (fun x => match x with pat => k end))
  (at level 20, pat pattern, m at level 99, k at level 200, only parsing).

Definition get_self : io t := fun s => (Ok (fst s), s).

Definition put_handler (h : option File) : io unit :=
  fun s => (Ok tt, (set_handler (fst s) h, snd s)).

(** an external call: recorded, then answered from the calls before it *)
Definition extern {A} (c : mpi_call) (answer : list mpi_call -> result A) : io A :=
  fun s => (answer (snd s), (fst s, snd s ++ [c])).

Section Methods.

Variable MPI : MPI_module.
Variable env : MPI_env.

(** the dict literal: keys inserted in source order *)
Definition switcher : gmap Z string :=
  <[MODE_APPEND MPI := "MPI.MODE_APPEND - set initial position of all file pointers to end of file"%string]>
  (<[MODE_SEQUENTIAL MPI := "MPI.MODE_SEQUENTIAL - file will only be accessed sequentially"%string]>
  (<[MODE_UNIQUE_OPEN MPI := "MPI.MODE_UNIQUE_OPEN - file will not be concurrently opened elsewhere"%string]>
  (<[MODE_DELETE_ON_CLOSE MPI := "MPI.MODE_DELETE_ON_CLOSE - delete file on close"%string]>
  (<[MODE_EXCL MPI := "MPI.MODE_EXCL - error if creating file that already exists"%string]>
  (<[MODE_CREATE MPI := "MPI.MODE_CREATE - create the file if it does not exist"%string]>
  (<[MODE_WRONLY MPI := "MPI.MODE_WRONLY - write only"%string]>
  (<[MODE_RDWR MPI := "MPI.MODE_RDWR - reading and writing"%string]>
  (<[MODE_RDONLY MPI := "MPI.MODE_RDONLY - read only"%string]> ∅)))))))).

Definition __check_file_mode (mode : Z) : result Z :=
  match switcher !! mode with
  | None => Raise ValueError
  | Some _ => Ok mode
  end.

Definition file_open (mode : Z) : io unit :=
  amode <~ lift (__check_file_mode mode);;
  self <~ get_self;;
  fh <~ extern (Call_File_Open (filename self) amode)
               (fun calls => File_Open env calls (filename self) amode);;
  put_handler (Some fh).

Definition __dtype_to_mpi (char : ascii) : result Datatype :=
  match _typedict MPI with
  | Some d =>
      match d char with Some m => Ok m | None => Raise KeyError end
  | None =>
      match __TypeDict__ MPI with
      | Some d =>
          match d char with Some m => Ok m | None => Raise KeyError end
      | None => Raise ValueError
      end
  end.

(** [self.decomposition.decompose(domain)] *)
Definition decompose (d : decomposition_obj) (domain : list value)
  : result (list value * list value * list value) :=
  match d with
  | Linear d => Decomposition.decompose d domain VNone VNone
  | Cart c => Cartesian.decompose c domain
  end.

(** [self.handler.m(...)]: [None] has no methods *)
Definition the_handler : io File :=
  self <~ get_self;;
  match handler self with
  | Some fh => ret fh
  | None => lift (Raise AttributeError)
  end.

Definition load (domain : list value) (dtype : dtype_arg) (order : string)
    (header_offset : offset_arg) : io ndarray :=
  self <~ get_self;;
  _ <~ match handler self with
       | None => file_open (MODE_RDONLY MPI)
       | Some _ => ret tt
       end;;
  self <~ get_self;;
  '(sizes, subsizes, starts) <~ lift (decompose (decomposition self) domain);;
  etype <~ match dtype with
           | NumpyType char => lift (__dtype_to_mpi char)
           | ForeignType => lift (Raise NotImplementedError)
           end;;
  mpi_order <~ (if String.eqb (upper order) "C" then ret (ORDER_C MPI)
                else lift (Raise ValueError));;
  filetype <~ extern (Call_Create_subarray etype sizes subsizes starts mpi_order)
                (fun calls => Create_subarray env calls etype sizes subsizes starts mpi_order);;
  _ <~ extern (Call_Commit filetype) (fun calls => Commit env calls filetype);;
  fh <~ the_handler;;
  position <~ extern (Call_Get_position fh) (fun calls => Get_position env calls fh);;
  pos <~ lift (py_add (radd env) position header_offset);;
  _ <~ extern (Call_Set_view fh pos etype filetype)
         (fun calls => Set_view env calls fh pos etype filetype);;
  local_array <~ lift (numpy_empty env subsizes dtype (upper order));;
  extern (Call_Read_all fh local_array)
    (fun calls => Read_all env calls fh local_array).

Definition save (array : ndarray) (header : value) : io unit :=
  lift (Raise NotImplementedError).

Definition file_close : io unit :=
  fh <~ the_handler;;
  extern (Call_Close fh) (fun calls => Close env calls fh).

Definition file_handler : io (option File) :=
  self <~ get_self;;
  ret (handler self).

(** [numpy.save] of [numpy.py], on the branch taken for a communicator
    of more than one process: the statement that opens the file,
    [mpiio.file_open(mpiio.MPI.MODE_CREATE | mpiio.MPI.MODE_WRONLY)]. *)
Definition numpy_save_open : io unit :=
  file_open (Z.lor (MODE_CREATE MPI) (MODE_WRONLY MPI)).

End Methods.

(** the keys of [switcher], in source order *)
Definition listed_modes (MPI : MPI_module) : list Z :=
  [ MODE_RDONLY MPI; MODE_RDWR MPI; MODE_WRONLY MPI; MODE_CREATE MPI;
    MODE_EXCL MPI; MODE_DELETE_ON_CLOSE MPI; MODE_UNIQUE_OPEN MPI;
    MODE_SEQUENTIAL MPI; MODE_APPEND MPI ].

(** a mode constant that is a single bit *)
Definition is_flag (m : Z) : bool := (0 <? m) && (m =? 2 ^ Z.log2 m).

End MpiIO.

(** The access modes and [ORDER_C] as MPICH's [mpi.h] defines them (Open
    MPI has the same access modes), with a type dictionary that knows the
    double precision float. *)
Definition mpich : MPI_module := {|
  MODE_RDONLY := 2;
  MODE_RDWR := 8;
  MODE_WRONLY := 4;
  MODE_CREATE := 1;
  MODE_EXCL := 64;
  MODE_DELETE_ON_CLOSE := 16;
  MODE_UNIQUE_OPEN := 32;
  MODE_SEQUENTIAL := 256;
  MODE_APPEND := 128;
  ORDER_C := 56;
  _typedict := Some (fun c => if Ascii.eqb c "d" then Some 11%nat else None);
  __TypeDict__ := None
|}.

(** an environment in which every external call succeeds *)
Definition obliging_env : MPI_env := {|
  File_Open := fun _ _ _ => Ok 0%nat;
  Create_subarray := fun _ _ _ _ _ _ => Ok 1%nat;
  Commit := fun _ _ => Ok tt;
  Get_position := fun _ _ => Ok 0;
  Set_view := fun _ _ _ _ _ => Ok tt;
  Read_all := fun _ _ a => Ok a;
  Close := fun _ _ => Ok tt;
  numpy_empty := fun shape dtype order =>
    Ok {| shape := shape; dtype := dtype; order := order; data := [] |};
  radd := fun _ x => Ok x
|}.

(** a channel on two processes that has not opened its file yet *)
Definition closed_channel : MpiIO.t := {|
  MpiIO.decomposition := MpiIO.Linear {| Decomposition.size := 2; Decomposition.rank := 0 |};
  MpiIO.filename := "a.npy";
  MpiIO.handler := None
|}.

(** ** Cells, grids and the calls of [load] *)

(** is the cell inside the array of shape [domain]: the brick of the
    sizes [domain] at the start 0 on every axis *)
Definition in_domain (domain : list value) (cell : list Z) : bool :=
  CartesianDecomposition.contains domain (replicate (length domain) (VInt 0)) cell.

(** grid coordinates of a worker of the grid [dims] *)
Definition in_grid (dims coords : list Z) : Prop :=
  Forall2 (fun workers id => 0 <= id < workers) dims coords.

(** the [Cartesian] object of the worker at [coords] *)
Definition grid_worker (base : Decomposition.t) (dims coords : list Z) : Cartesian.t :=
  {| Cartesian.base := base; Cartesian.dims := dims; Cartesian.coords := coords |}.

(** the place of a call in the sequence that [load] issues *)
Definition call_kind (c : mpi_call) : nat :=
  match c with
  | Call_File_Open _ _ => 0
  | Call_Create_subarray _ _ _ _ _ => 1
  | Call_Commit _ => 2
  | Call_Get_position _ => 3
  | Call_Set_view _ _ _ _ => 4
  | Call_Read_all _ _ => 5
  | Call_Close _ => 6
  end.

(** the calls of a complete [load], with and without the initial open *)
Definition load_sequence (opened : bool) : list nat :=
  if opened then [1; 2; 3; 4; 5]%nat else [0; 1; 2; 3; 4; 5]%nat.

Definition has_handler (self : MpiIO.t) : bool :=
  match MpiIO.handler self with Some _ => true | None => false end.

(** the file handle a call is made on *)
Definition call_handle (c : mpi_call) : option File :=
  match c with
  | Call_Get_position fh | Call_Set_view fh _ _ _ | Call_Read_all fh _
  | Call_Close fh => Some fh
  | Call_File_Open _ _ | Call_Create_subarray _ _ _ _ _ | Call_Commit _ => None
  end.

Definition raised {A} (r : result A) : option exception :=
  match r with
  | Ok _ => None
  | Raise e => Some e
  end.

(** the exception, if any, with which the environment answers the call
    [c] made after the calls [before] *)
Definition refusal (env : MPI_env) (before : list mpi_call) (c : mpi_call)
  : option exception :=
  match c with
  | Call_File_Open filename amode => raised (File_Open env before filename amode)
  | Call_Create_subarray etype sizes subsizes starts order =>
      raised (Create_subarray env before etype sizes subsizes starts order)
  | Call_Commit filetype => raised (Commit env before filetype)
  | Call_Get_position fh => raised (Get_position env before fh)
  | Call_Set_view fh pos etype filetype =>
      raised (Set_view env before fh pos etype filetype)
  | Call_Read_all fh buffer => raised (Read_all env before fh buffer)
  | Call_Close fh => raised (Close env before fh)
  end.

(** A function that made the calls [new] after the calls [calls] and ended
    with [outcome] stopped at the first call that raised: a call that the
    environment answered with an exception is the last call, and that
    exception is the outcome. *)
Definition stops_at_refusal {A} (env : MPI_env) (calls new : list mpi_call)
    (outcome : result A) : Prop :=
  forall (i : nat) c e,
    new !! i = Some c ->
    refusal env (calls ++ take i new) c = Some e ->
    S i = length new /\ outcome = Raise e.

(** ** Communicators and the constructors *)

(** what a [Cartcomm] adds to a communicator: [Get_dim()] and
    [Get_coords(rank)] *)
Record topology := { Get_dim : Z; Get_coords : Z -> list Z }.

(** an [MPI.Comm]; [cartcomm] is set for an [MPI.Cartcomm] *)
Record Comm := { Get_size : Z; Get_rank : Z; cartcomm : option topology }.

(** the [comm] argument of a constructor: a communicator, or an object
    that is none ([None], the default, included) *)
Inductive comm_arg :=
  | AComm (c : Comm)
  | NotAComm.

(** [Decomposition.__init__] *)
Definition Decomposition__init__ (comm : comm_arg) : result Decomposition.t :=
  match comm with
  | NotAComm => Raise ValueError
  | AComm c => Ok {| Decomposition.size := Get_size c; Decomposition.rank := Get_rank c |}
  end.

Section Constructors.

(** [MPI.Compute_dims(nnodes, dims)] *)
Variable Compute_dims : Z -> Z -> result (list Z).

(** [Cartesian.__init__] *)
Definition Cartesian__init__ (comm : comm_arg) : result Cartesian.t :=
  base <- Decomposition__init__ comm;;
  match comm with
  | AComm {| cartcomm := Some topo |} =>
      dims <- Compute_dims (Decomposition.size base) (Get_dim topo);;
      Ok {| Cartesian.base := base;
            Cartesian.dims := dims;
            Cartesian.coords := Get_coords topo (Decomposition.rank base) |}
  | _ => Raise ValueError
  end.

(** [MpiIO.__init__] *)
Definition MpiIO__init__ (comm : comm_arg) (filename : string) : result MpiIO.t :=
  decomposition <-
    match comm with
    | AComm {| cartcomm := Some _ |} =>
        c <- Cartesian__init__ comm;; Ok (MpiIO.Cart c)
    | _ =>
        d <- Decomposition__init__ comm;; Ok (MpiIO.Linear d)
    end;;
  Ok {| MpiIO.decomposition := decomposition;
        MpiIO.filename := filename;
        MpiIO.handler := None |}.

End Constructors.

(** ** numpy.py: [load] and [save] *)

(** the entries of the header that [load] reads: [metadata["shape"]],
    [metadata["dtype"]], [metadata["_offset"]] *)
Record Header := {
  header_shape : list value;
  header_dtype : dtype_arg;
  _offset : offset_arg
}.

Module Numpy.

Section Functions.

Import MpiIO.

Variable MPI : MPI_module.
Variable env : MPI_env.
Variable Compute_dims : Z -> Z -> result (list Z).

(** [head(filename)], [numpy.load(filename, **kwargs)] and
    [numpy.save(filename, array, **kwargs)] *)
Variable head : string -> result Header.
Variable numpy_load : string -> result ndarray.
Variable numpy_save : string -> ndarray -> result unit.

(** Both functions build their own [MpiIO] object: [run] runs methods on
    it and keeps the outcome and the calls.  The module [mpi4py] that [load]
    imports first is taken to be installed. *)
Definition run {A} (mpiio : MpiIO.t) (calls : list mpi_call) (m : io A)
  : result A * list mpi_call :=
  let '(outcome, (_, calls)) := m (mpiio, calls) in (outcome, calls).

Definition load (filename : string) (comm : option Comm) (calls : list mpi_call)
  : result ndarray * list mpi_call :=
  match comm with
  | None => (numpy_load filename, calls)
  | Some c =>
      if Get_size c =? 1 then (numpy_load filename, calls)
      else
        match head filename with
        | Raise e => (Raise e, calls)
        | Ok metadata =>
            match MpiIO__init__ Compute_dims (AComm c) filename with
            | Raise e => (Raise e, calls)
            | Ok mpiio =>
                run mpiio calls
                  (_ <~ file_open MPI env (MODE_RDONLY MPI);;
                   local_array <~ MpiIO.load MPI env (header_shape metadata)
                                    (header_dtype metadata) "C" (_offset metadata);;
                   _ <~ file_close env;;
                   ret local_array)
            end
        end
  end.

(** Past the open, [save] calls [mpiio.decomposition.compose]: neither
    [Decomposition] nor [Cartesian] has such an attribute, so the lookup
    raises [AttributeError] and the statements after it are never reached. *)
Definition save (array : ndarray) (filename : string) (comm : option Comm)
    (calls : list mpi_call) : result unit * list mpi_call :=
  match comm with
  | None => (numpy_save filename array, calls)
  | Some c =>
      if Get_size c =? 1 then (numpy_save filename array, calls)
      else
        match MpiIO__init__ Compute_dims (AComm c) filename with
        | Raise e => (Raise e, calls)
        | Ok mpiio =>
            run mpiio calls
              (_ <~ numpy_save_open MPI env;;
               lift (Raise AttributeError))
        end
  end.

End Functions.

End Numpy.

(** the calls of a complete parallel [load] of numpy.py *)
Definition numpy_load_sequence : list nat := [0; 1; 2; 3; 4; 5; 6]%nat.

(** a communicator of two processes without topology, and metadata of a
    file that holds a 3 x 4 array of doubles after 128 header bytes *)
Definition two_processes : Comm :=
  {| Get_size := 2; Get_rank := 1; cartcomm := None |}.

Definition header_3x4 : Header :=
  {| header_shape := [VInt 3; VInt 4]; header_dtype := NumpyType "d"; _offset := VInt 128 |}.

(** metadata of a file that holds a single row *)
Definition header_1x4 : Header :=
  {| header_shape := [VInt 1; VInt 4]; header_dtype := NumpyType "d"; _offset := VInt 128 |}.

(** ** numpy.py: [_write_array_header] *)

(** the exceptions of this function: those above, the [NameError] of an
    unbound name and the [struct.error] of [struct.pack] *)
Inductive error :=
  | Builtin (e : exception)
  | NameError
  | struct_error.

Inductive outcome (A : Type) :=
  | Return (a : A)
  | Throw (e : error).
Arguments Return {A} a.
Arguments Throw {A} e.

(** [bytes] objects are kept as strings, one character per byte. *)

Definition newline : string := String "010" EmptyString.

(** [b" " * n] *)
Fixpoint spaces (n : nat) : string :=
  match n with
  | O => EmptyString
  | S n => String " " (spaces n)
  end.

(** [struct.pack("<H", n)]: two bytes, low byte first *)
Definition struct_pack_H (n : Z) : outcome string :=
  if (0 <=? n) && (n <=? 65535) then
    Return (String (ascii_of_N (Z.to_N (n mod 256)))
              (String (ascii_of_N (Z.to_N (n / 256))) EmptyString))
  else Throw struct_error.

(** [struct.unpack("<H", s)], the reading of that field *)
Definition struct_unpack_H (s : string) : option Z :=
  match s with
  | String lo (String hi EmptyString) =>
      Some (Z.of_N (N_of_ascii lo) + 256 * Z.of_N (N_of_ascii hi))
  | _ => None
  end.

(** the order of [sorted(d.items())]: by key, the keys of a dict being
    different from one another *)
Definition key_le (a b : string * string) : Prop :=
  String.leb (fst a) (fst b) = true.

#[global] Instance key_le_dec : RelDecision key_le :=
  fun a b => decide (String.leb (fst a) (fst b) = true).

(** [version in (None, v)] *)
Definition version_in (version : option (Z * Z)) (v : Z * Z) : bool :=
  match version with
  | None => true
  | Some (major, minor) => (major =? fst v) && (minor =? snd v)
  end.

Section WriteArrayHeader.

(** [fmt.ARRAY_ALIGN], [fmt.MAGIC_LEN], [fmt.magic] and
    [fmt._filter_header] of [numpy.lib.format] *)
Variables ARRAY_ALIGN MAGIC_LEN : Z.
Variable magic : Z -> Z -> string.
Variable _filter_header : string -> string.

(** [fp.Write(data)], answered from the data written before *)
Variable Write : list string -> string -> result unit.

(** the entries ["'%s': %s, " % (key, repr(value))] joined; an item is a
    key with the [repr] of its value *)
Fixpoint entries (items : list (string * string)) : string :=
  match items with
  | [] => EmptyString
  | (key, repr) :: items =>
      String.append "'" (String.append key (String.append "': "
        (String.append repr (String.append ", " (entries items)))))
  end.

Definition header_text (d : list (string * string)) : string :=
  String.append "{" (String.append (entries (merge_sort key_le d)) "}").

Definition len (s : string) : Z := Z.of_nat (String.length s).

Definition _write_array_header (d : list (string * string)) (version : option (Z * Z))
    (written : list string) : outcome (Z * Z) * list string :=
  let header := _filter_header (header_text d) in
  let hlen := len header + 1 in
  if ARRAY_ALIGN =? 0 then (Throw (Builtin ZeroDivisionError), written)
  else
    let padlen_v1 := ARRAY_ALIGN - ((MAGIC_LEN + 2 + hlen) mod ARRAY_ALIGN) in
    let padlen_v2 := ARRAY_ALIGN - ((MAGIC_LEN + 4 + hlen) mod ARRAY_ALIGN) in
    if (hlen + padlen_v1 <? 2 ^ 16) && version_in version (1, 0) then
      match struct_pack_H (hlen + padlen_v1) with
      | Throw e => (Throw e, written)
      | Return field =>
          let header_prefix := String.append (magic 1 0) field in
          let topad := padlen_v1 in
          let header :=
            String.append header (String.append (spaces (Z.to_nat topad)) newline) in
          match Write written header_prefix with
          | Raise e => (Throw (Builtin e), written ++ [header_prefix])
          | Ok _ =>
              match Write (written ++ [header_prefix]) header with
              | Raise e => (Throw (Builtin e), written ++ [header_prefix; header])
              | Ok _ => (Return (1, 0), written ++ [header_prefix; header])
              end
          end
      end
    else if (hlen + padlen_v2 <? 2 ^ 32) && version_in version (2, 0) then
      (* [magic(2, 0)]: the name [magic] is not bound in numpy.py *)
      (Throw NameError, written)
    else (Throw (Builtin ValueError), written).

End WriteArrayHeader.

(** [numpy.lib.format]: the magic string is "\x93NUMPY" and two version
    bytes, eight bytes in all; arrays are aligned to 64 bytes *)
Definition numpy_magic (major minor : Z) : string :=
  String "147" (String.append "NUMPY"
    (String (ascii_of_N (Z.to_N major)) (String (ascii_of_N (Z.to_N minor)) EmptyString))).

(** the header dict of a 3 x 4 array of doubles *)
Definition header_dict_3x4 : list (string * string) :=
  [("descr", "'<f8'"); ("fortran_order", "False"); ("shape", "(3, 4)")]%string.

(** ** utils.py: [find_file] *)

(** the outcome of a function that can also raise [FileNotFoundError] or
    another [OSError] of the file system *)
Inductive found (A : Type) :=
  | Found (a : A)
  | Failed (e : exception)
  | FileNotFoundError
  | OSError.
Arguments Found {A} a.
Arguments Failed {A} e.
Arguments FileNotFoundError {A}.
Arguments OSError {A}.

(** the argument: a [FileLike] object with its [name], or a path string *)
Inductive filename_arg :=
  | AFileLike (name : string)
  | APath (filename : string).

Section FindFile.

(** [Path(filename).exists()], and [str(f)] for the [f] of
    [Path(filename).parent.iterdir()], which raises when the directory
    cannot be listed *)
Variable path_exists : string -> bool.
Variable parent_listing : string -> found (list string).

Definition find_file (filename : filename_arg) : found string :=
  match filename with
  | AFileLike name => Found name
  | APath filename =>
      if path_exists filename then Found filename
      else
        match parent_listing filename with
        | Found listing =>
            let potential_files := List.filter (String.prefix filename) listing in
            match potential_files with
            | [file] => Found file
            | _ :: _ :: _ => Failed ValueError
            | [] => FileNotFoundError
            end
        | Failed e => Failed e
        | FileNotFoundError => FileNotFoundError
        | OSError => OSError
        end
  end.

End FindFile.

(** ** True division below [2^53] *)

Section TrueDivision.

Lemma pow2_pos k : 0 <= k -> 0 < 2 ^ k.
Proof. intros; apply Z.pow_pos_nonneg; lia. Qed.

(** Rounding a quotient that is scaled to at least 52 bits never reaches
    the next multiple of the scale when the dividend has at most 53 bits. *)
Lemma round_half_even_floor x y k :
  0 < y -> 0 <= k -> 0 <= x < 2 ^ 53 -> 2 ^ 52 * y <= x * 2 ^ k ->
  round_half_even (x * 2 ^ k) y / 2 ^ k = x / y.
Proof.
  intros Hy Hk Hx Hn.
  pose proof (pow2_pos k Hk) as HP.
  set (P := 2 ^ k) in *.
  assert (E53 : 2 ^ 53 = 2 * 2 ^ 52) by reflexivity.
  assert (H52 : 0 < 2 ^ 52) by reflexivity.
  set (T := 2 ^ 52) in *.
  pose proof (Z.div_mod x y ltac:(lia)) as Dx.
  pose proof (Z.mod_pos_bound x y Hy) as Bx.
  pose proof (Z.div_mod (x * P) y ltac:(lia)) as Dq.
  pose proof (Z.mod_pos_bound (x * P) y Hy) as Bq.
  unfold round_half_even.
  set (Q := x / y) in *. set (R := x mod y) in *.
  set (q := x * P / y) in *. set (r := (x * P) mod y) in *.
  assert (Lo : Q * P <= q) by nia.
  assert (Hi : q < (Q + 1) * P) by nia.
  assert (Up : y <= 2 * r -> q + 1 < (Q + 1) * P).
  { intros Hr.
    destruct (Z.eq_dec (q + 1) ((Q + 1) * P)) as [Heq|]; [exfalso | lia].
    assert (q = (Q + 1) * P - 1) by lia. subst q.
    assert (r = y - (y - R) * P) by nia.
    assert (2 * P <= y) by nia.
    nia. }
  assert (In : forall m, Q * P <= m < (Q + 1) * P -> m / P = Q).
  { intros m Hm. symmetry. apply (Z.div_unique m P Q (m - Q * P)); lia. }
  destruct (Z.compare_spec (2 * r) y) as [He|Hl|Hg].
  - destruct (Z.even q); apply In; lia.
  - apply In; lia.
  - apply In; lia.
Qed.

Lemma scale_nonpos x y e : e <= 0 -> scale x y e = (x * 2 ^ (- e), y).
Proof.
  intros He. unfold scale.
  destruct (Z.leb_spec 0 e) as [H0|H0]; [|reflexivity].
  assert (e = 0) by lia. subst e. f_equal; simpl; lia.
Qed.

(** The exponent chosen for [x / y] is that of the quotient. *)
Lemma quotient_exponent_spec x y :
  0 < y <= x ->
  0 <= quotient_exponent x y <= Z.log2 x /\ y * 2 ^ quotient_exponent x y <= x.
Proof.
  intros Hxy. unfold quotient_exponent.
  pose proof (Z.log2_nonneg y) as Ly.
  pose proof (Z.log2_le_mono y x ltac:(lia)) as Lxy.
  destruct (Z.log2_spec x ltac:(lia)) as [Lx _].
  destruct (Z.log2_spec y ltac:(lia)) as [_ Uy].
  set (d := Z.log2 x - Z.log2 y).
  assert (Hd : 0 <= d) by (unfold d; lia).
  unfold scale. destruct (Z.leb_spec 0 d) as [_|]; [|lia].
  destruct (Z.leb_spec (y * 2 ^ d) x) as [Hle|Hgt].
  - unfold d at 2. lia.
  - assert (d <> 0) by (intros E; rewrite E in Hgt; simpl in Hgt; lia).
    split; [unfold d; lia|].
    assert (E : 2 ^ Z.log2 x = 2 ^ Z.succ (Z.log2 y) * 2 ^ (d - 1)).
    { rewrite <- Z.pow_add_r by lia. f_equal. unfold d. lia. }
    pose proof (pow2_pos (d - 1) ltac:(lia)). nia.
Qed.

(** [int(a / b)] is the floor quotient while the dividend stays below
    [2^53]. *)
Lemma true_divide_exact a b :
  0 < b <= a -> a < 2 ^ 53 ->
  exists f, true_divide a b = Ok f /\ int_of_float f = a / b.
Proof.
  intros Hab Ha.
  destruct (quotient_exponent_spec a b Hab) as [[D0 D1] D2].
  assert (L : Z.log2 a <= 52).
  { apply Z.lt_succ_r. apply Z.log2_lt_pow2; [lia|exact Ha]. }
  unfold true_divide.
  destruct (Z.eqb_spec b 0) as [|_]; [lia|].
  destruct (Z.eqb_spec a 0) as [|_]; [lia|].
  rewrite (Z.abs_eq a), (Z.abs_eq b) by lia.
  set (d := quotient_exponent a b) in *.
  rewrite Z.max_l by lia.
  rewrite scale_nonpos by lia.
  replace (- (d - 52)) with (52 - d) by lia.
  set (k := 52 - d).
  assert (Hk : 0 <= k <= 52) by (unfold k; lia).
  pose proof (pow2_pos k ltac:(lia)) as HP.
  assert (N : 2 ^ 52 * b <= a * 2 ^ k).
  { replace (2 ^ 52) with (2 ^ d * 2 ^ k)
      by (rewrite <- Z.pow_add_r by lia; f_equal; unfold k; lia).
    nia. }
  pose proof (round_half_even_floor a b k ltac:(lia) ltac:(lia) ltac:(lia) N) as F.
  set (m := round_half_even (a * 2 ^ k) b) in *.
  assert (M0 : 0 <= m).
  { unfold m, round_half_even.
    pose proof (Z.div_pos (a * 2 ^ k) b ltac:(nia) ltac:(lia)).
    destruct (_ ?= _); [destruct (Z.even _)| |]; lia. }
  assert (S1 : Z.sgn a * Z.sgn b * m = m).
  { rewrite (Z.sgn_pos a), (Z.sgn_pos b) by lia. lia. }
  assert (Q53 : a / b < 2 ^ 53).
  { apply Z.le_lt_trans with a; [|lia]. apply Z.div_le_upper_bound; nia. }
  assert (NoOv : (0 <=? d - 52) && (2 ^ 1024 <=? m * 2 ^ (d - 52)) = false).
  { destruct (Z.leb_spec 0 (d - 52)) as [H0|]; [|reflexivity].
    assert (E : d - 52 = 0) by lia. rewrite E. simpl andb.
    assert (k = 0) by (unfold k; lia).
    apply Z.leb_gt. replace (2 ^ 0) with 1 by reflexivity.
    assert (m = a / b).
    { rewrite <- F. replace (2 ^ k) with 1 by (subst k; replace (52 - d) with 0 by lia; reflexivity).
      now rewrite Z.div_1_r. }
    assert (2 ^ 53 < 2 ^ 1024) by (apply Z.pow_lt_mono_r; lia).
    lia. }
  rewrite NoOv. eexists; split; [reflexivity|].
  unfold int_of_float; cbn [mant expo]. rewrite S1.
  destruct (Z.leb_spec 0 (d - 52)) as [H0|H0].
  - assert (E : d - 52 = 0) by lia. rewrite E.
    rewrite <- F. replace k with 0 by (unfold k; lia).
    replace (2 ^ 0) with 1 by reflexivity. rewrite Z.div_1_r. lia.
  - replace (- (d - 52)) with k by (unfold k; lia).
    rewrite Z.quot_div_nonneg by lia. exact F.
Qed.

End TrueDivision.

(** ** The Partitioner is a partition of [[0, load)] *)

Section PartitionerProperties.

Variables load workers : Z.
Hypothesis workers_pos : 0 < workers.

Import Partitioner.

Lemma rem_is_mod : rem load workers = load mod workers.
Proof.
  unfold rem, part. pose proof (Z.div_mod load workers ltac:(lia)). lia.
Qed.

Lemma rem_bounds : 0 <= rem load workers < workers.
Proof. rewrite rem_is_mod. now apply Z.mod_pos_bound. Qed.

Lemma part_rem : load = part load workers * workers + rem load workers.
Proof. unfold rem. lia. Qed.

Lemma split_share id : hi load workers id - low load workers id = share load workers id.
Proof.
  unfold hi, low, split, share.
  destruct (_ <=? _); cbn [fst snd]; lia.
Qed.

Lemma low_0 : low load workers 0 = 0.
Proof.
  pose proof rem_bounds. unfold low, split.
  destruct (Z.leb_spec (workers - rem load workers) 0); cbn [fst]; lia.
Qed.

Lemma hi_last : hi load workers (workers - 1) = load.
Proof.
  pose proof rem_bounds. pose proof part_rem. unfold hi, split.
  destruct (Z.leb_spec (workers - rem load workers) (workers - 1)); cbn [snd].
  - lia.
  - assert (rem load workers = 0) by lia. nia.
Qed.

(** each range ends where the next one starts *)
Lemma hi_low_succ id : hi load workers id = low load workers (id + 1).
Proof.
  unfold hi, low, split.
  destruct (Z.leb_spec (workers - rem load workers) id);
    destruct (Z.leb_spec (workers - rem load workers) (id + 1));
    cbn [fst snd]; lia.
Qed.

Lemma share_extra id :
  share load workers id = part load workers + 1 <-> workers - rem load workers <= id.
Proof.
  unfold share. destruct (Z.leb_spec (workers - rem load workers) id); lia.
Qed.

Lemma share_base id :
  share load workers id = part load workers <-> id < workers - rem load workers.
Proof.
  unfold share. destruct (Z.leb_spec (workers - rem load workers) id); lia.
Qed.

Lemma share_monotone i j : i <= j -> share load workers i <= share load workers j.
Proof.
  intros Hij. unfold share.
  destruct (Z.leb_spec (workers - rem load workers) i);
    destruct (Z.leb_spec (workers - rem load workers) j); lia.
Qed.

Lemma share_balanced i j : Z.abs (share load workers i - share load workers j) <= 1.
Proof. unfold share. do 2 destruct (_ <=? _); lia. Qed.

Lemma share_nonneg id : 0 <= load -> 0 <= share load workers id.
Proof.
  intros Hl. assert (0 <= part load workers) by (apply Z.div_pos; lia).
  unfold share. destruct (_ <=? _); lia.
Qed.

Lemma total_low n : total load workers n = low load workers (Z.of_nat n).
Proof.
  induction n as [|n IH].
  - change (Z.of_nat 0) with 0. now rewrite low_0.
  - cbn [total]. rewrite IH, <- split_share, hi_low_succ.
    replace (Z.of_nat (S n)) with (Z.of_nat n + 1) by lia. lia.
Qed.

Lemma total_load : total load workers (Z.to_nat workers) = load.
Proof.
  rewrite total_low, Z2Nat.id by lia.
  replace (low load workers workers) with (hi load workers (workers - 1))
    by (rewrite hi_low_succ; f_equal; lia).
  apply hi_last.
Qed.

Lemma low_monotone i j : 0 <= load -> i <= j -> low load workers i <= low load workers j.
Proof.
  intros Hl Hij. replace j with (i + Z.of_nat (Z.to_nat (j - i))) by lia.
  generalize (Z.to_nat (j - i)). intros n.
  induction n as [|n IH].
  - replace (i + Z.of_nat 0) with i by lia. lia.
  - replace (i + Z.of_nat (S n)) with (i + Z.of_nat n + 1) by lia.
    rewrite <- hi_low_succ.
    pose proof (split_share (i + Z.of_nat n)).
    pose proof (share_nonneg (i + Z.of_nat n) Hl).
    lia.
Qed.

(** every unit of [[0, load)] lies in the range of exactly one worker *)
Lemma unit_owner u :
  0 <= u < load ->
  exists id, 0 <= id < workers /\ low load workers id <= u < hi load workers id /\
    forall id', 0 <= id' < workers ->
      low load workers id' <= u < hi load workers id' -> id' = id.
Proof.
  intros Hu.
  assert (Ex : forall n : nat, u < low load workers (Z.of_nat n) ->
            exists id, 0 <= id < Z.of_nat n /\
              low load workers id <= u < hi load workers id).
  { induction n as [|n IH]; intros Hn.
    - change (Z.of_nat 0) with 0 in Hn. rewrite low_0 in Hn. lia.
    - destruct (Z_lt_le_dec u (low load workers (Z.of_nat n))) as [Hlt|Hge].
      + destruct (IH Hlt) as (id & ? & ?). exists id. split; [lia|assumption].
      + exists (Z.of_nat n). split; [lia|]. rewrite hi_low_succ.
        replace (Z.of_nat n + 1) with (Z.of_nat (S n)) by lia. lia. }
  destruct (Ex (Z.to_nat workers)) as (id & Hid & Hin).
  { rewrite Z2Nat.id by lia.
    replace (low load workers workers) with (hi load workers (workers - 1))
      by (rewrite hi_low_succ; f_equal; lia).
    rewrite hi_last. lia. }
  exists id. split; [lia|]. split; [assumption|].
  intros id' Hid' Hin'.
  destruct (Z.lt_trichotomy id' id) as [Hlt|[Heq|Hgt]]; [exfalso| assumption |exfalso].
  - pose proof (low_monotone (id' + 1) id ltac:(lia) ltac:(lia)).
    rewrite <- hi_low_succ in *. lia.
  - pose proof (low_monotone (id + 1) id' ltac:(lia) ltac:(lia)).
    rewrite <- hi_low_succ in *. lia.
Qed.

End PartitionerProperties.

(** ** [Decomposition] against the Partitioner *)

Section DecompositionProperties.

Import Decomposition.

Lemma base_share_exact load workers :
  0 < workers <= load -> load < 2 ^ 53 ->
  base_share load workers = Ok (load / workers).
Proof.
  intros H1 H2. unfold base_share.
  destruct (true_divide_exact load workers H1 H2) as (f & -> & <-).
  reflexivity.
Qed.

(** Below [2^53] the code computes the Partitioner's split, for every id. *)
Lemma split_work_exact load workers id :
  0 < workers <= load -> load < 2 ^ 53 ->
  __split_work (VInt load) (VInt workers) (VInt id)
  = Ok (Partitioner.split load workers id).
Proof.
  intros H1 H2. unfold __split_work. cbn [expect_int bind].
  rewrite base_share_exact by assumption. cbn [bind].
  unfold Partitioner.split, Partitioner.rem, Partitioner.part.
  destruct (_ <=? _); reflexivity.
Qed.

(** On integers the split raises nothing but what the division raises. *)
Lemma split_work_int_outcome load workers id :
  (exists b, __split_work (VInt load) (VInt workers) (VInt id) = Ok b) \/
  __split_work (VInt load) (VInt workers) (VInt id) = Raise ZeroDivisionError \/
  __split_work (VInt load) (VInt workers) (VInt id) = Raise OverflowError.
Proof.
  unfold __split_work, base_share, true_divide. cbn [expect_int bind].
  destruct (workers =? 0); [right; left; reflexivity|].
  destruct (load =? 0).
  - cbn [bind]. destruct (_ <=? _); left; eexists; reflexivity.
  - destruct (scale _ _ _) as [n d].
    destruct (_ && _); [right; right; reflexivity|].
    cbn [bind]. destruct (_ <=? _); left; eexists; reflexivity.
Qed.

(** [decompose] on a domain of rank at least one, with both [workers]
    and [id] supplied: the check on axis 0, then the split of axis 0; the
    other axes are copied and their starts are zero. *)
Lemma decompose_cons self d0 rest workers id :
  is_None workers || is_None id = false ->
  decompose self (d0 :: rest) workers id =
    (too_small <- py_lt d0 workers;;
     if too_small then Raise ValueError
     else
       '(low, hi) <- __split_work d0 workers id;;
       Ok (d0 :: rest, VInt (hi - low) :: rest,
           VInt low :: replicate (length rest) (VInt 0))).
Proof.
  intros HN. unfold decompose. rewrite HN.
  cbn [getitem lookup list_lookup bind length replicate].
  destruct (py_lt d0 workers) as [[|]|e]; reflexivity.
Qed.

(** the defaulting of the pair [(workers, id)] *)
Lemma decompose_default self domain workers id :
  is_None workers || is_None id = true ->
  decompose self domain workers id
  = decompose self domain (VInt (size self)) (VInt (rank self)).
Proof. intros HN. unfold decompose. rewrite HN. reflexivity. Qed.

End DecompositionProperties.

(** ** The split of [Decomposition]: what holds below [2^53], what fails above *)

Section SplitWork.

Import Decomposition.

(** For loads below [2^53] the ranges of [__split_work] are a partition
    of [[0, load)] into contiguous ranges in the order of the ids; the sizes
    are the base share or one more, the last [rem] workers have the larger
    one, and the sizes add up to [load]. *)
Theorem split_work_partitions load workers :
  0 < workers <= load -> load < 2 ^ 53 ->
  exists low hi : Z -> Z,
    (forall id, __split_work (VInt load) (VInt workers) (VInt id) = Ok (low id, hi id)) /\
    low 0 = 0 /\ hi (workers - 1) = load /\
    (forall id, hi id = low (id + 1)) /\
    (forall id, 0 <= hi id - low id) /\
    (forall i j, Z.abs ((hi i - low i) - (hi j - low j)) <= 1) /\
    (forall i j, i <= j -> hi i - low i <= hi j - low j) /\
    (forall id, hi id - low id = load / workers + 1 <-> workers - load mod workers <= id) /\
    (forall id, hi id - low id = load / workers <-> id < workers - load mod workers) /\
    Partitioner.total load workers (Z.to_nat workers) = load /\
    (forall n, Partitioner.total load workers n = low (Z.of_nat n)) /\
    (forall u, 0 <= u < load ->
       exists id, 0 <= id < workers /\ low id <= u < hi id /\
         forall id', 0 <= id' < workers -> low id' <= u < hi id' -> id' = id).
Proof.
  intros H1 H2. assert (Hw : 0 < workers) by lia.
  exists (Partitioner.low load workers), (Partitioner.hi load workers).
  split; [|split; [|split; [|split; [|split; [|split; [|split; [|split; [|split; [|split; [|split]]]]]]]]]].
  - intros id. rewrite split_work_exact by assumption.
    unfold Partitioner.low, Partitioner.hi. now destruct (Partitioner.split _ _ _).
  - now apply low_0.
  - now apply hi_last.
  - intros id. apply hi_low_succ.
  - intros id. rewrite split_share. apply share_nonneg; lia.
  - intros i j. rewrite !split_share. apply share_balanced.
  - intros i j Hij. rewrite !split_share. now apply share_monotone.
  - intros id. rewrite split_share, <- rem_is_mod by assumption. apply share_extra.
  - intros id. rewrite split_share, <- rem_is_mod by assumption. apply share_base.
  - now apply total_load.
  - intros n. now apply total_low.
  - intros u Hu. now apply unit_owner.
Qed.

(** C1: with [load = 2^53 + 3] and one worker the range computed for
    worker 0 is [[0, 2^53 + 4)]: it ends beyond [load], so it is not a
    sub-range of [[0, load)] and its size is not [load]. *)
Theorem split_work_overshoots_load :
  __split_work (VInt (2 ^ 53 + 3)) (VInt 1) (VInt 0) = Ok (0, 2 ^ 53 + 4) /\
  2 ^ 53 + 3 < 2 ^ 53 + 4 /\
  (2 ^ 53 + 4) - 0 <> 2 ^ 53 + 3.
Proof. repeat split; vm_compute; congruence. Qed.

(** C2: with [load = 2^54 + 2] and one worker the base share is [2^54]
    and the remainder [load - part * workers] is 2, more than there are
    workers: worker 0 receives [part + 1] units, the range starts at 1, and
    one unit of the remainder is handed to nobody. *)
Theorem remainder_exceeds_workers :
  base_share (2 ^ 54 + 2) 1 = Ok (2 ^ 54) /\
  (2 ^ 54 + 2) - 2 ^ 54 * 1 = 2 /\
  __split_work (VInt (2 ^ 54 + 2)) (VInt 1) (VInt 0) = Ok (1, 2 ^ 54 + 2) /\
  (2 ^ 54 + 2) - 1 = 2 ^ 54 + 1.
Proof. repeat split; vm_compute; congruence. Qed.

(** C9: with [load = 2^53 + 3] and one worker the base share is
    [2^53 + 4], not the floor quotient [2^53 + 3], and
    [load - part * workers] is [-1], not the remainder 0. *)
Theorem base_share_not_floor :
  base_share (2 ^ 53 + 3) 1 = Ok (2 ^ 53 + 4) /\
  (2 ^ 53 + 3) / 1 = 2 ^ 53 + 3 /\
  (2 ^ 53 + 3) - (2 ^ 53 + 4) * 1 = -1 /\
  (2 ^ 53 + 3) mod 1 = 0.
Proof. repeat split; vm_compute; congruence. Qed.

(** the remainder case of the specification: domain [[7, 4]], three
    workers, local sizes 2, 2, 3 and starts 0, 2, 4 on axis 0 *)
Example decompose_7_4 self :
  map (fun id => decompose self [VInt 7; VInt 4] (VInt 3) (VInt id)) [0; 1; 2] =
  [ Ok ([VInt 7; VInt 4], [VInt 2; VInt 4], [VInt 0; VInt 0]);
    Ok ([VInt 7; VInt 4], [VInt 2; VInt 4], [VInt 2; VInt 0]);
    Ok ([VInt 7; VInt 4], [VInt 3; VInt 4], [VInt 4; VInt 0]) ].
Proof. reflexivity. Qed.

End SplitWork.

(** ** [Decomposition.decompose] *)

Section Decompose.

Import Decomposition.

(** C3, as the code has it: [__split_work] raises [ValueError] exactly
    when one of its three arguments is not an integer; [decompose] on
    integers raises [ValueError] exactly when [domain[0] < workers],
    whatever the id, and raises it for every id that is not an integer.
    No range of ids is rejected. *)
Theorem invalid_argument_conditions :
  (forall load workers id : value,
      __split_work load workers id = Raise ValueError <->
      isinstance_int load && isinstance_int workers && isinstance_int id = false) /\
  (forall self load rest workers id,
      decompose self (VInt load :: rest) (VInt workers) (VInt id) = Raise ValueError <->
      load < workers) /\
  (forall self load rest workers s,
      decompose self (VInt load :: rest) (VInt workers) (VStr s) = Raise ValueError).
Proof.
  split; [|split].
  - intros [load| |s1] [workers| |s2] [id| |s3]; cbn [isinstance_int andb];
      try (split; [reflexivity | intros _; reflexivity]).
    split; [|discriminate].
    intros E. destruct (split_work_int_outcome load workers id) as [[b Hb]|[Hb|Hb]];
      rewrite Hb in E; discriminate.
  - intros self load rest workers id.
    rewrite decompose_cons by reflexivity. cbn [py_lt bind].
    destruct (Z.ltb_spec load workers) as [Hlt|Hge].
    + split; [intros _; assumption | reflexivity].
    + split; [|lia]. intros E.
      destruct (split_work_int_outcome load workers id) as [[[low hi] Hb]|[Hb|Hb]];
        rewrite Hb in E; discriminate.
  - intros self load rest workers s.
    rewrite decompose_cons by reflexivity. cbn [py_lt bind].
    destruct (load <? workers); reflexivity.
Qed.

(** C3: an id outside [[0, workers)] is accepted: with 8 units and 4
    workers, id 7 gets the range [[17, 20)]. *)
Lemma id_out_of_range_accepted :
  decompose {| size := 4; rank := 0 |} [VInt 8] (VInt 4) (VInt 7)
  = Ok ([VInt 8], [VInt 3], [VInt 17]) /\
  ~ (0 <= 7 < 4).
Proof. split; [reflexivity | lia]. Qed.

(** C4: with [domain[0] >= workers], [decompose] returns what the split
    of axis 0 returns, placed in entry 0 of [subsizes] and [starts]; the
    other entries are those of the domain and zero.  With a positive number
    of workers and [domain[0]] below [2^53] the split is the Partitioner's.
    The 8 x 4 x 4 domain over four workers gives worker 2 the sizes
    [[2, 4, 4]] at [[4, 0, 0]]. *)
Theorem decompose_splits_axis_0_only self load rest workers id :
  workers <= load ->
  decompose self (VInt load :: rest) (VInt workers) (VInt id) =
    ('(low, hi) <- __split_work (VInt load) (VInt workers) (VInt id);;
     Ok (VInt load :: rest, VInt (hi - low) :: rest,
         VInt low :: replicate (length rest) (VInt 0))) /\
  (0 < workers -> load < 2 ^ 53 ->
   decompose self (VInt load :: rest) (VInt workers) (VInt id) =
     Ok (VInt load :: rest,
         VInt (Partitioner.share load workers id) :: rest,
         VInt (Partitioner.low load workers id) :: replicate (length rest) (VInt 0))) /\
  (size self <= load ->
   decompose self (VInt load :: rest) VNone VNone =
     ('(low, hi) <- __split_work (VInt load) (VInt (size self)) (VInt (rank self));;
      Ok (VInt load :: rest, VInt (hi - low) :: rest,
          VInt low :: replicate (length rest) (VInt 0)))) /\
  decompose self [VInt 8; VInt 4; VInt 4] (VInt 4) (VInt 2) =
    Ok ([VInt 8; VInt 4; VInt 4], [VInt 2; VInt 4; VInt 4], [VInt 4; VInt 0; VInt 0]).
Proof.
  assert (G : forall w i, w <= load ->
    decompose self (VInt load :: rest) (VInt w) (VInt i) =
    ('(low, hi) <- __split_work (VInt load) (VInt w) (VInt i);;
     Ok (VInt load :: rest, VInt (hi - low) :: rest,
         VInt low :: replicate (length rest) (VInt 0)))).
  { intros w i Hwl. rewrite decompose_cons by reflexivity. cbn [py_lt bind].
    destruct (Z.ltb_spec load w); [lia | reflexivity]. }
  intros Hle.
  pose proof (G workers id Hle) as E.
  split; [exact E | split; [|split; [|reflexivity]]].
  2: { intros Hs. rewrite decompose_default by reflexivity. now apply G. }
  intros Hw Hl. rewrite E, split_work_exact by lia. cbn [bind].
  rewrite <- split_share by assumption.
  unfold Partitioner.hi, Partitioner.low.
  now destruct (Partitioner.split load workers id).
Qed.

Lemma decompose_splits_axis_0_only_witness :
  4 <= 8 /\
  decompose {| size := 4; rank := 2 |} [VInt 8; VInt 4; VInt 4] (VInt 4) (VInt 2) =
    Ok ([VInt 8; VInt 4; VInt 4], [VInt 2; VInt 4; VInt 4], [VInt 4; VInt 0; VInt 0]).
Proof.
  split; [lia|].
  apply (decompose_splits_axis_0_only {| size := 4; rank := 2 |} 8 [VInt 4; VInt 4] 4 2).
  lia.
Defined.

(** C10: when [workers] or [id] is [None], both are taken from the
    communicator: [decompose] then checks [domain[0]] against [self.size]
    and splits axis 0 among [self.size] workers for [self.rank], and the
    argument that was supplied has no effect.  Only when neither is [None]
    are the two arguments used.  On the communicator of size 4 and rank 2
    the 8 x 4 x 4 domain with [workers = 2] alone, or with [id = 0] alone,
    gives the sizes [[2, 4, 4]] at [[4, 0, 0]] of rank 2 among 4; with both
    it gives the sizes [[4, 4, 4]] at [[0, 0, 0]] of id 0 among 2. *)
Theorem decompose_defaults_pair self domain workers id :
  decompose self domain workers VNone
    = decompose self domain (VInt (size self)) (VInt (rank self)) /\
  decompose self domain VNone id
    = decompose self domain (VInt (size self)) (VInt (rank self)) /\
  decompose self domain workers VNone = decompose self domain VNone VNone /\
  decompose self domain VNone id = decompose self domain VNone VNone /\
  (is_None workers || is_None id = true ->
   decompose self domain workers id =
     match domain with
     | [] => Raise IndexError
     | size0 :: rest =>
         too_small <- py_lt size0 (VInt (size self));;
         if too_small then Raise ValueError
         else
           '(low, hi) <- __split_work size0 (VInt (size self)) (VInt (rank self));;
           Ok (size0 :: rest, VInt (hi - low) :: rest,
               VInt low :: replicate (length rest) (VInt 0))
     end) /\
  (is_None workers || is_None id = false ->
   decompose self domain workers id =
     match domain with
     | [] => Raise IndexError
     | size0 :: rest =>
         too_small <- py_lt size0 workers;;
         if too_small then Raise ValueError
         else
           '(low, hi) <- __split_work size0 workers id;;
           Ok (size0 :: rest, VInt (hi - low) :: rest,
               VInt low :: replicate (length rest) (VInt 0))
     end) /\
  decompose {| size := 4; rank := 2 |} [VInt 8; VInt 4; VInt 4] (VInt 2) VNone
    = Ok ([VInt 8; VInt 4; VInt 4], [VInt 2; VInt 4; VInt 4], [VInt 4; VInt 0; VInt 0]) /\
  decompose {| size := 4; rank := 2 |} [VInt 8; VInt 4; VInt 4] VNone (VInt 0)
    = Ok ([VInt 8; VInt 4; VInt 4], [VInt 2; VInt 4; VInt 4], [VInt 4; VInt 0; VInt 0]) /\
  decompose {| size := 4; rank := 2 |} [VInt 8; VInt 4; VInt 4] (VInt 2) (VInt 0)
    = Ok ([VInt 8; VInt 4; VInt 4], [VInt 4; VInt 4; VInt 4], [VInt 0; VInt 0; VInt 0]).
Proof.
  assert (A : forall w, decompose self domain w VNone
              = decompose self domain (VInt (size self)) (VInt (rank self))).
  { intros w. apply decompose_default. cbn [is_None]. apply orb_true_r. }
  assert (B : forall i, decompose self domain VNone i
              = decompose self domain (VInt (size self)) (VInt (rank self))).
  { intros i. apply decompose_default. reflexivity. }
  assert (E : forall w i, is_None w || is_None i = false ->
              decompose self domain w i =
              match domain with
              | [] => Raise IndexError
              | size0 :: rest =>
                  too_small <- py_lt size0 w;;
                  if too_small then Raise ValueError
                  else
                    '(low, hi) <- __split_work size0 w i;;
                    Ok (size0 :: rest, VInt (hi - low) :: rest,
                        VInt low :: replicate (length rest) (VInt 0))
              end).
  { intros w i HN. destruct domain as [|size0 rest].
    - unfold decompose. rewrite HN. reflexivity.
    - now apply decompose_cons. }
  split; [apply A | split; [apply B | split; [|split; [|split; [|split]]]]].
  - now rewrite !A.
  - now rewrite !B.
  - intros HN. rewrite decompose_default by assumption. now apply E.
  - apply E.
  - split; [reflexivity | split; reflexivity].
Qed.

End Decompose.

(** ** [Cartesian.decompose] *)

Section CartesianDecompose.

Import Cartesian.

Lemma getitem_middle {A} (p l : list A) x n :
  length p = n -> getitem (p ++ x :: l) n = Ok x.
Proof.
  intros <-. unfold getitem. now rewrite list_lookup_middle.
Qed.

Lemma getitem_end {A} (p : list A) n :
  length p = n -> getitem p n = Raise IndexError.
Proof.
  intros <-. unfold getitem. now rewrite lookup_ge_None_2.
Qed.

Lemma setitem_middle {A} (p l : list A) x y n :
  length p = n -> setitem (p ++ x :: l) n y = Ok (p ++ y :: l).
Proof.
  intros <-. unfold setitem.
  destruct (decide _) as [|N].
  - f_equal. induction p as [|a p IH]; [reflexivity|].
    cbn. f_equal. apply IH. rewrite length_app in *. cbn in *. lia.
  - exfalso. apply N. rewrite length_app. cbn. lia.
Qed.

(** the call of the parent's [decompose] on the one-axis domain *)
Lemma decompose_one_axis base extent workers id :
  ('(_, ssz, st) <- Decomposition.decompose base [extent] (VInt workers) (VInt id);;
   ssz0 <- getitem ssz 0;;
   st0 <- getitem st 0;;
   Ok (ssz0, st0))
  = CartesianDecomposition.axis extent workers id.
Proof.
  rewrite decompose_cons by reflexivity. unfold CartesianDecomposition.axis.
  destruct (py_lt extent (VInt workers)) as [[|]|e]; cbn [bind]; try reflexivity.
  destruct (Decomposition.__split_work _ _ _) as [[low hi]|e]; reflexivity.
Qed.

(** one turn of the loop, once the three subscripts are known *)
Lemma axis_step_axis self domain dim subsizes starts extent workers id :
  getitem domain dim = Ok extent ->
  getitem (dims self) dim = Ok workers ->
  getitem (coords self) dim = Ok id ->
  axis_step self domain dim (subsizes, starts) =
    ('(ssz, st) <- CartesianDecomposition.axis extent workers id;;
     subsizes <- setitem subsizes dim ssz;;
     starts <- setitem starts dim st;;
     Ok (subsizes, starts)).
Proof.
  intros H1 H2 H3. unfold axis_step. rewrite H1, H2, H3. cbn [bind].
  rewrite <- decompose_one_axis with (base := base self).
  destruct (Decomposition.decompose _ _ _ _) as [[[sz ssz] st]|e]; cbn [bind]; [|reflexivity].
  destruct (getitem ssz 0) as [ssz0|e]; cbn [bind]; [|reflexivity].
  destruct (getitem st 0) as [st0|e]; reflexivity.
Qed.

(** The loop over the grid axes, started after [length pd] axes: the
    entries already written stay, the remaining ones are those of the
    axis-by-axis decomposition of the remaining lists. *)
Lemma for_each_axes self domain :
  forall dims' coords' domain' pw pc pd ps pst,
    dims self = pw ++ dims' -> coords self = pc ++ coords' -> domain = pd ++ domain' ->
    length pw = length pd -> length pc = length pd ->
    length ps = length pd -> length pst = length pd ->
    for_each (seq (length pd) (length dims')) (axis_step self domain)
      (ps ++ domain', pst ++ replicate (length domain') (VInt 0))
    = ('(s, t) <- CartesianDecomposition.axes domain' dims' coords';;
       Ok (ps ++ s, pst ++ t)).
Proof.
  induction dims' as [|w dims' IH];
    intros coords' domain' pw pc pd ps pst Hw Hc Hd Lw Lc Ls Lt.
  - reflexivity.
  - cbn [length seq for_each].
    destruct domain' as [|d domain'].
    { unfold axis_step. rewrite getitem_end; [reflexivity|].
      rewrite Hd, app_nil_r. reflexivity. }
    destruct coords' as [|i coords'].
    { unfold axis_step. rewrite Hd, Hw, Hc.
      rewrite (getitem_middle pd), (getitem_middle pw) by congruence.
      rewrite getitem_end; [reflexivity|]. rewrite app_nil_r. congruence. }
    rewrite (axis_step_axis self domain _ _ _ d w i);
      [| rewrite Hd; now apply getitem_middle
       | rewrite Hw; now apply getitem_middle
       | rewrite Hc; now apply getitem_middle ].
    cbn [CartesianDecomposition.axes length replicate].
    destruct (CartesianDecomposition.axis d w i) as [[ssz st]|e]; cbn [bind]; [|reflexivity].
    rewrite !setitem_middle by congruence. cbn [bind].
    specialize (IH coords' domain' (pw ++ [w]) (pc ++ [i]) (pd ++ [d])
                  (ps ++ [ssz]) (pst ++ [st])).
    rewrite !length_app in IH. cbn [length] in IH.
    replace (length pd + 1)%nat with (S (length pd)) in IH by lia.
    rewrite <- !app_assoc in IH. cbn [app] in IH.
    rewrite IH by (assumption || lia).
    destruct (CartesianDecomposition.axes domain' dims' coords') as [[s t]|e];
      cbn [bind]; [|reflexivity].
    now rewrite <- !app_assoc.
Qed.

(** [Cartesian.decompose] is the axis-by-axis decomposition. *)
Lemma decompose_axes self domain :
  decompose self domain
  = CartesianDecomposition.decompose (dims self) (coords self) domain.
Proof.
  unfold decompose, CartesianDecomposition.decompose.
  pose proof (for_each_axes self domain (dims self) (coords self) domain
                [] [] [] [] []) as E.
  cbn [app length] in E. rewrite E by reflexivity.
  destruct (CartesianDecomposition.axes _ _ _) as [[s t]|e]; reflexivity.
Qed.

(** a fitting grid: every axis is split by the Partitioner *)
Lemma axes_brick domain : forall dims coords,
  CartesianDecomposition.grid_fits domain dims = true ->
  length coords = length dims ->
  CartesianDecomposition.axes domain dims coords
  = Ok (CartesianDecomposition.brick domain dims coords).
Proof.
  induction domain as [|d domain IH]; intros [|w dims] [|i coords] Hfit Hlen;
    try discriminate; try reflexivity.
  cbn [CartesianDecomposition.grid_fits] in Hfit.
  destruct d as [extent| |]; try discriminate.
  apply andb_prop in Hfit as [Hfit Hrest].
  apply andb_prop in Hfit as [Hfit H53].
  apply andb_prop in Hfit as [H0 Hle].
  apply Z.ltb_lt in H0, H53. apply Z.leb_le in Hle.
  cbn [CartesianDecomposition.axes CartesianDecomposition.brick].
  unfold CartesianDecomposition.axis. cbn [py_lt bind].
  destruct (Z.ltb_spec extent w); [lia|].
  rewrite split_work_exact by lia. cbn [bind].
  rewrite IH by (assumption || (cbn [length] in Hlen; lia)).
  destruct (CartesianDecomposition.brick domain dims coords) as [s t].
  cbn [bind]. rewrite <- split_share by assumption.
  unfold Partitioner.hi, Partitioner.low.
  now destruct (Partitioner.split extent w i).
Qed.

(** what a successful axis-by-axis decomposition looks like *)
Lemma axes_entries : forall grid domain at_ s t,
  CartesianDecomposition.axes domain grid at_ = Ok (s, t) ->
  drop (length grid) s = drop (length grid) domain /\
  drop (length grid) t = replicate (length domain - length grid) (VInt 0) /\
  forall d extent workers id,
    domain !! d = Some extent -> grid !! d = Some workers -> at_ !! d = Some id ->
    exists ssz st,
      CartesianDecomposition.axis extent workers id = Ok (ssz, st) /\
      s !! d = Some ssz /\ t !! d = Some st.
Proof.
  intros grid. induction grid as [|w grid IH]; intros domain at_ s t E.
  - cbn [CartesianDecomposition.axes] in E. injection E as <- <-.
    cbn [length drop]. rewrite Nat.sub_0_r.
    split; [reflexivity | split; [reflexivity|]].
    intros d extent workers id _ Hd. destruct d; discriminate Hd.
  - cbn [CartesianDecomposition.axes] in E.
    destruct domain as [|x domain]; [discriminate|].
    destruct at_ as [|i at_]; [discriminate|].
    destruct (CartesianDecomposition.axis x w i) as [[ssz st]|e] eqn:Ea;
      cbn [bind] in E; [|discriminate].
    destruct (CartesianDecomposition.axes domain grid at_) as [[s' t']|e] eqn:Er;
      cbn [bind] in E; [|discriminate].
    injection E as <- <-.
    destruct (IH _ _ _ _ Er) as (D1 & D2 & D3).
    cbn [length drop Nat.sub]. split; [exact D1 | split; [exact D2|]].
    intros [|d] extent workers id Hx Hw Hi.
    + cbn in Hx, Hw, Hi. injection Hx as <-. injection Hw as <-. injection Hi as <-.
      exists ssz, st. auto.
    + cbn in Hx, Hw, Hi. destruct (D3 d extent workers id Hx Hw Hi) as (a & b & ? & ? & ?).
      exists a, b. auto.
Qed.

(** C5: on a domain of rank at least the grid rank, [Cartesian.decompose]
    is the axis-by-axis decomposition: when it returns, [sizes] is the
    domain, each grid axis [d] carries the size and start that the
    Partitioner-based decomposition of [domain[d]] gives for
    [workers = dims[d]] and [id = coords[d]], and the axes beyond the grid
    rank keep their size and start at zero; on a grid that fits it returns
    the brick of the Partitioner's shares and starts.  On the 2 x 2 grid
    the domain [[8, 8]] falls into four 4 x 4 bricks starting at (0,0),
    (0,4), (4,0), (4,4), and each of the 64 cells lies in exactly one. *)
Theorem cartesian_decompose_per_axis self domain :
  (length (dims self) <= length domain)%nat ->
  decompose self domain
    = CartesianDecomposition.decompose (dims self) (coords self) domain /\
  (forall sizes subsizes starts,
      decompose self domain = Ok (sizes, subsizes, starts) ->
      sizes = domain /\
      drop (length (dims self)) subsizes = drop (length (dims self)) domain /\
      drop (length (dims self)) starts
        = replicate (length domain - length (dims self)) (VInt 0) /\
      forall d extent workers id,
        domain !! d = Some extent -> dims self !! d = Some workers ->
        coords self !! d = Some id ->
        exists ssz st,
          CartesianDecomposition.axis extent workers id = Ok (ssz, st) /\
          subsizes !! d = Some ssz /\ starts !! d = Some st) /\
  (length (coords self) = length (dims self) ->
   CartesianDecomposition.grid_fits domain (dims self) = true ->
   decompose self domain
     = Ok (domain,
           fst (CartesianDecomposition.brick domain (dims self) (coords self)),
           snd (CartesianDecomposition.brick domain (dims self) (coords self)))) /\
  map (fun w => decompose w [VInt 8; VInt 8]) grid_2x2 =
    [ Ok ([VInt 8; VInt 8], [VInt 4; VInt 4], [VInt 0; VInt 0]);
      Ok ([VInt 8; VInt 8], [VInt 4; VInt 4], [VInt 0; VInt 4]);
      Ok ([VInt 8; VInt 8], [VInt 4; VInt 4], [VInt 4; VInt 0]);
      Ok ([VInt 8; VInt 8], [VInt 4; VInt 4], [VInt 4; VInt 4]) ] /\
  (forall x y, 0 <= x < 8 -> 0 <= y < 8 ->
     length (List.filter
               (fun w => CartesianDecomposition.owns (decompose w [VInt 8; VInt 8]) [x; y])
               grid_2x2) = 1%nat).
Proof.
  intros Hrank.
  split; [apply decompose_axes|].
  split; [|split; [|split; [reflexivity|]]].
  - intros sizes subsizes starts E. rewrite decompose_axes in E.
    unfold CartesianDecomposition.decompose in E.
    destruct (CartesianDecomposition.axes _ _ _) as [[s t]|e] eqn:Ea;
      cbn [bind] in E; [|discriminate].
    injection E as <- <- <-. split; [reflexivity|]. now apply axes_entries.
  - intros Hcoords Hfit. rewrite decompose_axes. unfold CartesianDecomposition.decompose.
    rewrite axes_brick by assumption.
    now destruct (CartesianDecomposition.brick _ _ _).
  - intros x y Hx Hy.
    assert (Cx : x = 0 \/ x = 1 \/ x = 2 \/ x = 3 \/ x = 4 \/ x = 5 \/ x = 6 \/ x = 7) by lia.
    assert (Cy : y = 0 \/ y = 1 \/ y = 2 \/ y = 3 \/ y = 4 \/ y = 5 \/ y = 6 \/ y = 7) by lia.
    repeat (destruct Cx as [->|Cx]); try subst x;
      repeat (destruct Cy as [->|Cy]); try subst y; reflexivity.
Qed.

Lemma cartesian_decompose_per_axis_witness :
  (length [2; 2] <= length [VInt 8; VInt 8])%nat /\
  map (fun w => decompose w [VInt 8; VInt 8]) grid_2x2 =
    [ Ok ([VInt 8; VInt 8], [VInt 4; VInt 4], [VInt 0; VInt 0]);
      Ok ([VInt 8; VInt 8], [VInt 4; VInt 4], [VInt 0; VInt 4]);
      Ok ([VInt 8; VInt 8], [VInt 4; VInt 4], [VInt 4; VInt 0]);
      Ok ([VInt 8; VInt 8], [VInt 4; VInt 4], [VInt 4; VInt 4]) ].
Proof.
  assert (H : (length [2; 2] <= length [VInt 8; VInt 8])%nat) by (cbn [length]; lia).
  split; [exact H|].
  exact (proj1 (proj2 (proj2 (proj2
    (cartesian_decompose_per_axis
       {| base := {| Decomposition.size := 4; Decomposition.rank := 3 |};
          dims := [2; 2]; coords := [1; 1] |}
       [VInt 8; VInt 8] H))))).
Defined.

End CartesianDecompose.


(** ** [MpiIO]: mode validation, [load] and [save] *)

Section Channel.

Import MpiIO.

Variable MPI : MPI_module.
Variable env : MPI_env.

Lemma switcher_listed mode :
  is_Some (switcher MPI !! mode) <-> In mode (listed_modes MPI).
Proof.
  unfold switcher, listed_modes.
  repeat rewrite lookup_insert_is_Some'. rewrite lookup_empty.
  assert (N : ~ is_Some (@None string)) by (intros [? ?]; discriminate).
  cbn [In]. tauto.
Qed.

Lemma check_file_mode_listed mode :
  In mode (listed_modes MPI) -> __check_file_mode MPI mode = Ok mode.
Proof.
  intros H. apply switcher_listed in H as [v Hv].
  unfold __check_file_mode. now rewrite Hv.
Qed.

Lemma check_file_mode_unlisted mode :
  ~ In mode (listed_modes MPI) -> __check_file_mode MPI mode = Raise ValueError.
Proof.
  intros H. unfold __check_file_mode.
  destruct (switcher MPI !! mode) as [v|] eqn:E; [|reflexivity].
  exfalso. apply H, switcher_listed. now exists v.
Qed.

(** a mode that is no key of [switcher] is refused before [File.Open] *)
Lemma file_open_unlisted mode s :
  ~ In mode (listed_modes MPI) -> file_open MPI env mode s = (Raise ValueError, s).
Proof.
  intros H. unfold file_open, iobind, lift.
  now rewrite check_file_mode_unlisted.
Qed.

(** a single listed mode goes to [File.Open] *)
Lemma file_open_listed mode self calls :
  In mode (listed_modes MPI) ->
  file_open MPI env mode (self, calls) =
    match File_Open env calls (filename self) mode with
    | Ok fh => (Ok tt, (set_handler self (Some fh),
                        calls ++ [Call_File_Open (filename self) mode]))
    | Raise e => (Raise e, (self, calls ++ [Call_File_Open (filename self) mode]))
    end.
Proof.
  intros H. unfold file_open, iobind, lift, get_self, extern, put_handler.
  rewrite check_file_mode_listed by assumption. cbn [fst snd].
  destruct (File_Open env calls (filename self) mode); reflexivity.
Qed.

Lemma flag_is_power m : is_flag m = true -> exists k, 0 <= k /\ m = 2 ^ k.
Proof.
  unfold is_flag. intros H. apply andb_prop in H as [_ H].
  apply Z.eqb_eq in H. exists (Z.log2 m). split; [apply Z.log2_nonneg | exact H].
Qed.

(** the bitwise or of two different flags is no flag *)
Lemma lor_flags_no_flag a b c :
  is_flag a = true -> is_flag b = true -> is_flag c = true -> a <> b ->
  Z.lor a b <> c.
Proof.
  intros Ha Hb Hc Hab E.
  apply flag_is_power in Ha as (i & Hi & ->).
  apply flag_is_power in Hb as (j & Hj & ->).
  apply flag_is_power in Hc as (k & Hk & ->).
  assert (Ti : Z.testbit (Z.lor (2 ^ i) (2 ^ j)) i = true)
    by (rewrite Z.lor_spec, Z.pow2_bits_true by lia; reflexivity).
  assert (Tj : Z.testbit (Z.lor (2 ^ i) (2 ^ j)) j = true)
    by (rewrite Z.lor_spec, (Z.pow2_bits_true j) by lia; apply orb_true_r).
  rewrite E in Ti, Tj.
  rewrite Z.pow2_bits_eqb in Ti, Tj by lia.
  apply Z.eqb_eq in Ti, Tj. apply Hab. congruence.
Qed.

Lemma lor_flags_unlisted a b :
  forallb is_flag (listed_modes MPI) = true ->
  In a (listed_modes MPI) -> In b (listed_modes MPI) -> a <> b ->
  ~ In (Z.lor a b) (listed_modes MPI).
Proof.
  intros Hf Ha Hb Hab Hin.
  rewrite forallb_forall in Hf.
  exact (lor_flags_no_flag a b _ (Hf _ Ha) (Hf _ Hb) (Hf _ Hin) Hab eq_refl).
Qed.

End Channel.

Section ChannelClaims.

Import MpiIO.

Lemma rdonly_listed MPI : In (MODE_RDONLY MPI) (listed_modes MPI).
Proof. left. reflexivity. Qed.


(** [load] on a channel without a handle opens the file read-only and
    goes on with the handle it got *)
Lemma load_unopened MPI env domain dtype order header_offset self calls :
  handler self = None ->
  load MPI env domain dtype order header_offset (self, calls) =
    match File_Open env calls (filename self) (MODE_RDONLY MPI) with
    | Ok fh =>
        load MPI env domain dtype order header_offset
          (set_handler self (Some fh),
           calls ++ [Call_File_Open (filename self) (MODE_RDONLY MPI)])
    | Raise e =>
        (Raise e, (self, calls ++ [Call_File_Open (filename self) (MODE_RDONLY MPI)]))
    end.
Proof.
  intros Hn.
  cbv beta iota zeta delta [load iobind get_self lift ret fst snd].
  rewrite Hn, file_open_listed by apply rdonly_listed.
  destruct (File_Open env calls (filename self) (MODE_RDONLY MPI)) as [fh|e];
    reflexivity.
Qed.




(** C7: [save] raises [NotImplementedError] for every array and header,
    on every channel; it makes no call and leaves the object as it is. *)
Theorem save_not_implemented array header self calls :
  save array header (self, calls) = (Raise NotImplementedError, (self, calls)).
Proof. reflexivity. Qed.

(** C8: with single-bit mode constants, [file_open] refuses the bitwise
    or of any two different listed modes with [ValueError] before
    [File.Open] is called; the open of [numpy.save],
    [MODE_CREATE | MODE_WRONLY], is refused this way. *)
Theorem combined_modes_refused MPI env s :
  forallb is_flag (listed_modes MPI) = true ->
  MODE_CREATE MPI <> MODE_WRONLY MPI ->
  numpy_save_open MPI env s = (Raise ValueError, s) /\
  forall a b, In a (listed_modes MPI) -> In b (listed_modes MPI) -> a <> b ->
    file_open MPI env (Z.lor a b) s = (Raise ValueError, s).
Proof.
  intros Hf Hne.
  assert (G : forall a b, In a (listed_modes MPI) -> In b (listed_modes MPI) -> a <> b ->
              file_open MPI env (Z.lor a b) s = (Raise ValueError, s)).
  { intros a b Ha Hb Hab. apply file_open_unlisted.
    now apply lor_flags_unlisted. }
  split; [|exact G].
  unfold numpy_save_open. apply G; [| | exact Hne]; cbn [listed_modes In]; tauto.
Qed.

Lemma combined_modes_refused_witness :
  forallb is_flag (listed_modes mpich) = true /\
  MODE_CREATE mpich <> MODE_WRONLY mpich /\
  numpy_save_open mpich obliging_env (closed_channel, [])
    = (Raise ValueError, (closed_channel, [])).
Proof.
  assert (H1 : forallb is_flag (listed_modes mpich) = true) by reflexivity.
  assert (H2 : MODE_CREATE mpich <> MODE_WRONLY mpich) by (cbn; lia).
  split; [exact H1 | split; [exact H2|]].
  exact (proj1 (combined_modes_refused mpich obliging_env (closed_channel, []) H1 H2)).
Defined.

(** every listed mode passes the validation; every other value is
    refused before [File.Open] *)
Lemma file_mode_allow_list MPI env mode s :
  (In mode (listed_modes MPI) -> __check_file_mode MPI mode = Ok mode) /\
  (~ In mode (listed_modes MPI) -> file_open MPI env mode s = (Raise ValueError, s)).
Proof.
  split; [apply check_file_mode_listed | apply file_open_unlisted].
Qed.

End ChannelClaims.

Section TrueDivisionSmall.

(** The exponent of a quotient of positive integers, also when the
    quotient is below one: scaled by [2^k] to avoid negative powers. *)
Lemma quotient_exponent_scaled x y k :
  0 < x -> 0 < y -> 0 <= k -> 0 <= quotient_exponent x y + k ->
  - Z.log2 y - 1 <= quotient_exponent x y <= Z.log2 x /\
  y * 2 ^ (quotient_exponent x y + k) <= x * 2 ^ k.
Proof.
  intros Hx Hy Hk. unfold quotient_exponent.
  pose proof (Z.log2_nonneg y) as Ly. pose proof (Z.log2_nonneg x) as Lx0.
  destruct (Z.log2_spec x Hx) as [Lx Ux].
  destruct (Z.log2_spec y Hy) as [Ly' Uy].
  set (d := Z.log2 x - Z.log2 y).
  assert (Dd : d = Z.log2 x - Z.log2 y) by reflexivity.
  clearbody d.
  assert (Main : forall j, 0 <= j -> 0 <= d - 1 + j ->
            y * 2 ^ (d - 1 + j) <= x * 2 ^ j).
  { intros j Hj Hdj.
    assert (E : 2 ^ Z.log2 x * 2 ^ j = 2 ^ Z.succ (Z.log2 y) * 2 ^ (d - 1 + j)).
    { rewrite <- !Z.pow_add_r by lia. f_equal. lia. }
    pose proof (pow2_pos (d - 1 + j) Hdj). pose proof (pow2_pos j Hj). nia. }
  unfold scale.
  destruct (Z.leb_spec 0 d) as [Hd|Hd].
  - destruct (Z.leb_spec (y * 2 ^ d) x) as [Hle|Hgt]; intros Hdk.
    + split; [lia|].
      rewrite Z.pow_add_r by lia. pose proof (pow2_pos k Hk). nia.
    + split; [lia|].
      now apply Main.
  - destruct (Z.leb_spec y (x * 2 ^ (- d))) as [Hle|Hgt]; intros Hdk.
    + split; [lia|].
      replace k with (- d + (d + k)) at 2 by lia.
      rewrite (Z.pow_add_r 2 (- d) (d + k)) by lia.
      pose proof (pow2_pos (d + k) Hdk). nia.
    + split; [lia|]. now apply Main.
Qed.

(** [int(a / b)] is the floor quotient for every non-negative dividend
    and positive divisor below [2^53]. *)
Lemma true_divide_floor a b :
  0 <= a < 2 ^ 53 -> 0 < b < 2 ^ 53 ->
  exists f, true_divide a b = Ok f /\ int_of_float f = a / b.
Proof.
  intros Ha Hb.
  destruct (Z_le_gt_dec b a) as [Hba|Hab]; [apply true_divide_exact; lia|].
  unfold true_divide.
  destruct (Z.eqb_spec b 0) as [|_]; [lia|].
  destruct (Z.eqb_spec a 0) as [->|Ha0].
  { eexists; split; [reflexivity|]. now rewrite Z.div_0_l by lia. }
  rewrite (Z.abs_eq a), (Z.abs_eq b) by lia.
  assert (La : 0 <= Z.log2 a <= 52).
  { split; [apply Z.log2_nonneg|]. apply Z.lt_succ_r, Z.log2_lt_pow2; lia. }
  assert (Lb : 0 <= Z.log2 b <= 52).
  { split; [apply Z.log2_nonneg|]. apply Z.lt_succ_r, Z.log2_lt_pow2; lia. }
  set (d := quotient_exponent a b).
  assert (D0 : - 53 <= d <= 52).
  { destruct (Z_le_gt_dec 0 (d + 52)) as [H|H].
    - destruct (quotient_exponent_scaled a b 52 ltac:(lia) ltac:(lia) ltac:(lia) H). fold d in H0. lia.
    - unfold d, quotient_exponent in *.
      destruct (scale _ _ _) as [n dn]. destruct (dn <=? n); lia. }
  assert (Hk0 : 0 <= 52 - d) by lia.
  destruct (quotient_exponent_scaled a b (52 - d) ltac:(lia) ltac:(lia) Hk0
              ltac:(fold d; lia)) as [_ N].
  fold d in N. replace (d + (52 - d)) with 52 in N by lia.
  assert (Dneg : d <= 0).
  { destruct (Z_le_gt_dec d 0) as [|Hd]; [assumption|exfalso].
    assert (H0 : 0 <= d + 0) by lia.
    destruct (quotient_exponent_scaled a b 0 ltac:(lia) ltac:(lia) ltac:(lia) H0) as [_ N0].
    fold d in N0. rewrite Z.add_0_r in N0. replace (2 ^ 0) with 1 in N0 by reflexivity.
    pose proof (pow2_pos d ltac:(lia)). nia. }
  rewrite Z.max_l by lia.
  rewrite scale_nonpos by lia.
  replace (- (d - 52)) with (52 - d) by lia.
  set (k := 52 - d) in *.
  pose proof (pow2_pos k Hk0) as HP.
  pose proof (round_half_even_floor a b k ltac:(lia) Hk0 ltac:(lia) ltac:(lia)) as F.
  set (m := round_half_even (a * 2 ^ k) b) in *.
  assert (M0 : 0 <= m).
  { unfold m, round_half_even.
    pose proof (Z.div_pos (a * 2 ^ k) b ltac:(nia) ltac:(lia)).
    destruct (_ ?= _); [destruct (Z.even _)| |]; lia. }
  destruct (Z.leb_spec 0 (d - 52)) as [H0|H0]; [lia|]. cbn [andb].
  eexists; split; [reflexivity|].
  unfold int_of_float; cbn [mant expo].
  rewrite (Z.sgn_pos a), (Z.sgn_pos b) by lia.
  destruct (Z.leb_spec 0 (d - 52)) as [H1|H1]; [lia|].
  replace (- (d - 52)) with k by (unfold k; lia).
  rewrite Z.quot_div_nonneg by lia. replace (1 * 1 * m) with m by lia. exact F.
Qed.

End TrueDivisionSmall.

(** ** Further properties of the split *)

Section SplitWorkFurther.

Import Decomposition.

Lemma split_work_partitions_witness :
  0 < 3 <= 7 /\ 7 < 2 ^ 53 /\
  exists low hi : Z -> Z,
    (forall id, __split_work (VInt 7) (VInt 3) (VInt id) = Ok (low id, hi id)) /\
    low 0 = 0 /\ hi (3 - 1) = 7.
Proof.
  assert (H1 : 0 < 3 <= 7) by lia.
  assert (H2 : 7 < 2 ^ 53) by reflexivity.
  split; [exact H1 | split; [exact H2|]].
  destruct (split_work_partitions 7 3 H1 H2) as (low & hi & A & B & C & _).
  exists low, hi. split; [exact A | split; [exact B | exact C]].
Defined.

(** Below [2^53] the base share [int(load / workers)] is the floor
    quotient and [load - part * workers] is the remainder, for every
    non-negative load and every positive number of workers. *)
Theorem base_share_floor load workers :
  0 <= load < 2 ^ 53 -> 0 < workers < 2 ^ 53 ->
  base_share load workers = Ok (load / workers) /\
  load - load / workers * workers = load mod workers /\
  0 <= load mod workers < workers.
Proof.
  intros Hl Hw. split; [|split].
  - unfold base_share.
    destruct (true_divide_floor load workers Hl Hw) as (f & -> & <-). reflexivity.
  - pose proof (Z.div_mod load workers ltac:(lia)). lia.
  - apply Z.mod_pos_bound. lia.
Qed.

Lemma base_share_floor_witness :
  (0 <= 3 < 2 ^ 53) /\ (0 < 5 < 2 ^ 53) /\ base_share 3 5 = Ok 0.
Proof.
  assert (H1 : 0 <= 3 < 2 ^ 53) by (split; [lia | reflexivity]).
  assert (H2 : 0 < 5 < 2 ^ 53) by (split; [lia | reflexivity]).
  split; [exact H1 | split; [exact H2|]].
  exact (proj1 (base_share_floor 3 5 H1 H2)).
Defined.

(** An id outside [[0, workers)] is not refused: below [2^53] an id from
    [workers] on gets a non-empty range that starts at or beyond [load],
    and a negative id gets a non-empty range that ends at or below 0. *)
Theorem split_work_id_out_of_range load workers id :
  0 < workers <= load -> load < 2 ^ 53 ->
  exists low hi,
    __split_work (VInt load) (VInt workers) (VInt id) = Ok (low, hi) /\
    (workers <= id -> load <= low /\ low < hi) /\
    (id < 0 -> low < hi /\ hi <= 0).
Proof.
  intros H1 H2. rewrite split_work_exact by assumption.
  assert (Hw : 0 < workers) by lia.
  pose proof (rem_bounds load workers Hw) as Hr.
  pose proof (part_rem load workers) as Hp.
  assert (P1 : 1 <= Partitioner.part load workers).
  { unfold Partitioner.part. apply Z.div_le_lower_bound; lia. }
  unfold Partitioner.split.
  set (part := Partitioner.part load workers) in *.
  set (rem := Partitioner.rem load workers) in *.
  destruct (Z.leb_spec (workers - rem) id) as [Hb|Hb];
    eexists _, _; (split; [reflexivity|]); split; intros Hid; try lia; nia.
Qed.

Lemma split_work_id_out_of_range_witness :
  0 < 4 <= 8 /\ 8 < 2 ^ 53 /\
  exists low hi,
    __split_work (VInt 8) (VInt 4) (VInt 7) = Ok (low, hi) /\
    (4 <= 7 -> 8 <= low /\ low < hi) /\
    (7 < 0 -> low < hi /\ hi <= 0).
Proof.
  assert (H1 : 0 < 4 <= 8) by lia.
  assert (H2 : 8 < 2 ^ 53) by reflexivity.
  split; [exact H1 | split; [exact H2|]].
  exact (split_work_id_out_of_range 8 4 7 H1 H2).
Defined.

End SplitWorkFurther.

(** ** Shape of a decomposition result *)

Section DecompositionShape.

Lemma axes_length : forall grid domain at_ s t,
  CartesianDecomposition.axes domain grid at_ = Ok (s, t) ->
  length s = length domain /\ length t = length domain /\
  (length grid <= length domain)%nat.
Proof.
  intros grid. induction grid as [|w grid IH]; intros domain at_ s t E.
  - cbn [CartesianDecomposition.axes] in E. injection E as <- <-.
    rewrite length_replicate. cbn [length]. lia.
  - cbn [CartesianDecomposition.axes] in E.
    destruct domain as [|x domain]; [discriminate|].
    destruct at_ as [|i at_]; [discriminate|].
    destruct (CartesianDecomposition.axis x w i) as [[ssz st]|e];
      cbn [bind] in E; [|discriminate].
    destruct (CartesianDecomposition.axes domain grid at_) as [[s' t']|e] eqn:Er;
      cbn [bind] in E; [|discriminate].
    injection E as <- <-. destruct (IH _ _ _ _ Er) as (L1 & L2 & L3).
    cbn [length]. lia.
Qed.

(** Whatever decomposition the channel holds, a result of
    [self.decomposition.decompose(domain)] consists of the domain itself and
    of two lists of the domain's rank, and the domain is not empty unless the
    grid of a Cartesian decomposition has no axis. *)
Theorem decompose_result_shape d domain sizes subsizes starts :
  MpiIO.decompose d domain = Ok (sizes, subsizes, starts) ->
  sizes = domain /\
  length subsizes = length domain /\
  length starts = length domain /\
  match d with
  | MpiIO.Linear _ => (1 <= length domain)%nat
  | MpiIO.Cart c => (length (Cartesian.dims c) <= length domain)%nat
  end.
Proof.
  destruct d as [d|c]; cbn [MpiIO.decompose]; intros E.
  - destruct domain as [|d0 rest].
    { unfold Decomposition.decompose in E.
      destruct (is_None VNone || is_None VNone); discriminate E. }
    rewrite decompose_default in E by reflexivity.
    rewrite decompose_cons in E by reflexivity.
    destruct (py_lt d0 _) as [[|]|e]; cbn [bind] in E; try discriminate.
    destruct (Decomposition.__split_work _ _ _) as [[low hi]|e];
      cbn [bind] in E; [|discriminate].
    injection E as <- <- <-. cbn [length]. rewrite length_replicate.
    repeat split; lia.
  - rewrite decompose_axes in E. unfold CartesianDecomposition.decompose in E.
    destruct (CartesianDecomposition.axes _ _ _) as [[s t]|e] eqn:Ea;
      cbn [bind] in E; [|discriminate].
    injection E as <- <- <-. split; [reflexivity|]. now apply axes_length in Ea.
Qed.

Lemma decompose_result_shape_witness :
  MpiIO.decompose (MpiIO.Linear {| Decomposition.size := 4; Decomposition.rank := 2 |})
    [VInt 8; VInt 4; VInt 4]
    = Ok ([VInt 8; VInt 4; VInt 4], [VInt 2; VInt 4; VInt 4], [VInt 4; VInt 0; VInt 0]) /\
  length [VInt 2; VInt 4; VInt 4] = length [VInt 8; VInt 4; VInt 4].
Proof.
  assert (H : MpiIO.decompose
                (MpiIO.Linear {| Decomposition.size := 4; Decomposition.rank := 2 |})
                [VInt 8; VInt 4; VInt 4]
              = Ok ([VInt 8; VInt 4; VInt 4], [VInt 2; VInt 4; VInt 4],
                    [VInt 4; VInt 0; VInt 0])) by reflexivity.
  split; [exact H|].
  exact (proj1 (proj2 (decompose_result_shape _ _ _ _ _ H))).
Defined.

Lemma axes_short : forall grid domain at_,
  (length domain < length grid)%nat ->
  is_Ok (CartesianDecomposition.axes domain grid at_) = false.
Proof.
  intros grid. induction grid as [|w grid IH]; intros domain at_ Hlen.
  - cbn [length] in Hlen. lia.
  - cbn [CartesianDecomposition.axes].
    destruct domain as [|x domain]; [reflexivity|].
    destruct at_ as [|i at_]; [reflexivity|].
    destruct (CartesianDecomposition.axis x w i) as [[ssz st]|e];
      cbn [bind]; [|reflexivity].
    specialize (IH domain at_ ltac:(cbn [length] in Hlen; lia)).
    destruct (CartesianDecomposition.axes domain grid at_) as [[s t]|e];
      [discriminate IH | reflexivity].
Qed.

Lemma cartesian_decompose_short self domain :
  (length domain < length (Cartesian.dims self))%nat ->
  is_Ok (Cartesian.decompose self domain) = false.
Proof.
  intros Hlen. rewrite decompose_axes.
  unfold CartesianDecomposition.decompose.
  pose proof (axes_short (Cartesian.dims self) domain (Cartesian.coords self) Hlen) as H.
  destruct (CartesianDecomposition.axes _ _ _); [discriminate H | reflexivity].
Qed.

(** A domain of lower rank than the process grid is never decomposed:
    [Cartesian.decompose] raises, and so does [Decomposition.decompose] on
    the empty domain, with [IndexError]. *)
Theorem decompose_rank_too_low :
  (forall self domain,
      (length domain < length (Cartesian.dims self))%nat ->
      is_Ok (Cartesian.decompose self domain) = false) /\
  (forall self, (0 < length (Cartesian.dims self))%nat ->
      Cartesian.decompose self [] = Raise IndexError) /\
  (forall self workers id, Decomposition.decompose self [] workers id = Raise IndexError).
Proof.
  split; [|split].
  - intros self domain Hlen. now apply cartesian_decompose_short.
  - intros self Hlen. rewrite decompose_axes.
    unfold CartesianDecomposition.decompose.
    destruct (Cartesian.dims self) as [|w grid]; [cbn [length] in Hlen; lia|].
    reflexivity.
  - intros self workers id. unfold Decomposition.decompose.
    destruct (is_None workers || is_None id); reflexivity.
Qed.

Lemma decompose_rank_too_low_witness :
  is_Ok (Cartesian.decompose
           {| Cartesian.base := {| Decomposition.size := 4; Decomposition.rank := 0 |};
              Cartesian.dims := [2; 2]; Cartesian.coords := [0; 0] |}
           [VInt 8]) = false.
Proof.
  refine (proj1 decompose_rank_too_low _ [VInt 8] _).
  cbn [Cartesian.dims length]. lia.
Defined.

End DecompositionShape.

(** ** The bricks of a process grid tile the domain *)

Section BricksTile.

Import CartesianDecomposition.

Lemma grid_worker_brick base dims coords domain :
  grid_fits domain dims = true -> length coords = length dims ->
  Cartesian.decompose (grid_worker base dims coords) domain
  = Ok (domain, fst (brick domain dims coords), snd (brick domain dims coords)).
Proof.
  intros Hfit Hlen. rewrite decompose_axes. unfold decompose.
  cbn [grid_worker Cartesian.dims Cartesian.coords].
  rewrite axes_brick by assumption.
  now destruct (brick domain dims coords).
Qed.

Lemma in_grid_length dims coords : in_grid dims coords -> length coords = length dims.
Proof. intros H. symmetry. exact (Forall2_length _ _ _ H). Qed.

(** each cell of the domain lies in the brick of exactly one worker *)
Lemma brick_owner : forall dims domain cell,
  grid_fits domain dims = true -> in_domain domain cell = true ->
  exists coords,
    in_grid dims coords /\
    contains (fst (brick domain dims coords)) (snd (brick domain dims coords)) cell = true /\
    forall coords',
      in_grid dims coords' ->
      contains (fst (brick domain dims coords')) (snd (brick domain dims coords')) cell = true ->
      coords' = coords.
Proof.
  intros dims. induction dims as [|w dims IH]; intros domain cell Hfit Hin.
  - exists []. split; [constructor|]. split; [exact Hin|].
    intros coords' Hg _. now inversion Hg.
  - cbn [grid_fits] in Hfit.
    destruct domain as [|[extent| |] domain]; try discriminate.
    apply andb_prop in Hfit as [Hfit Hrest].
    apply andb_prop in Hfit as [Hfit H53].
    apply andb_prop in Hfit as [H0 Hle].
    apply Z.ltb_lt in H0, H53. apply Z.leb_le in Hle.
    unfold in_domain in Hin. cbn [length replicate contains] in Hin.
    destruct cell as [|c cell]; [discriminate|].
    apply andb_prop in Hin as [Hc Hin]. apply andb_prop in Hc as [Hc0 Hc1].
    apply Z.leb_le in Hc0. apply Z.ltb_lt in Hc1.
    destruct (unit_owner extent w H0 c ltac:(lia)) as (id & Hid & Hown & Huniq).
    destruct (IH domain cell Hrest Hin) as (coords & Hg & Hcov & Hu).
    exists (id :: coords). split; [constructor; assumption|]. split.
    + cbn [brick]. destruct (brick domain dims coords) as [s t]. cbn [fst snd contains] in *.
      rewrite Hcov, andb_true_r. rewrite <- (split_share extent w id) in *.
      apply andb_true_intro. split; [apply Z.leb_le | apply Z.ltb_lt]; lia.
    + intros coords' Hg' Hc'. inversion Hg' as [|w' i' dims' rest Hi' Hrest' E1 E2]; subst.
      cbn [brick] in Hc'. destruct (brick domain dims rest) as [s t] eqn:Eb.
      cbn [fst snd contains] in Hc'.
      apply andb_prop in Hc' as [Hh Ht]. apply andb_prop in Hh as [Hl Hh].
      apply Z.leb_le in Hl. apply Z.ltb_lt in Hh.
      rewrite <- (split_share extent w i') in Hh.
      f_equal.
      * apply Huniq; [assumption | lia].
      * apply Hu; [assumption|]. now rewrite Eb.
Qed.

(** On a grid that fits the domain, every cell of the domain belongs to
    the brick of exactly one worker of the grid: the bricks that
    [Cartesian.decompose] hands out leave no gap and do not overlap. *)
Theorem cartesian_bricks_tile base dims domain cell :
  grid_fits domain dims = true ->
  in_domain domain cell = true ->
  exists coords,
    in_grid dims coords /\
    owns (Cartesian.decompose (grid_worker base dims coords) domain) cell = true /\
    forall coords',
      in_grid dims coords' ->
      owns (Cartesian.decompose (grid_worker base dims coords') domain) cell = true ->
      coords' = coords.
Proof.
  intros Hfit Hin.
  destruct (brick_owner dims domain cell Hfit Hin) as (coords & Hg & Hc & Hu).
  exists coords. split; [assumption|]. split.
  - rewrite grid_worker_brick by (assumption || now apply in_grid_length). exact Hc.
  - intros coords' Hg' Ho. apply Hu; [assumption|].
    rewrite grid_worker_brick in Ho by (assumption || now apply in_grid_length).
    exact Ho.
Qed.

Lemma cartesian_bricks_tile_witness :
  grid_fits [VInt 7; VInt 5; VInt 3] [3; 2] = true /\
  in_domain [VInt 7; VInt 5; VInt 3] [6; 1; 2] = true /\
  exists coords,
    in_grid [3; 2] coords /\
    owns (Cartesian.decompose
            (grid_worker {| Decomposition.size := 6; Decomposition.rank := 0 |} [3; 2] coords)
            [VInt 7; VInt 5; VInt 3]) [6; 1; 2] = true.
Proof.
  assert (H1 : grid_fits [VInt 7; VInt 5; VInt 3] [3; 2] = true) by reflexivity.
  assert (H2 : in_domain [VInt 7; VInt 5; VInt 3] [6; 1; 2] = true) by reflexivity.
  split; [exact H1 | split; [exact H2|]].
  destruct (cartesian_bricks_tile {| Decomposition.size := 6; Decomposition.rank := 0 |}
              [3; 2] [VInt 7; VInt 5; VInt 3] [6; 1; 2] H1 H2) as (coords & Hg & Ho & _).
  exists coords. split; assumption.
Defined.

End BricksTile.

(** ** The calls of the channel *)

Section ChannelCalls.

Import MpiIO.

Lemma stops_nil {A} env calls (outcome : result A) :
  stops_at_refusal env calls [] outcome.
Proof. intros i c e H. destruct i; discriminate H. Qed.

Lemma stops_cons_ok {A} env calls c new (outcome : result A) :
  refusal env calls c = None ->
  stops_at_refusal env (calls ++ [c]) new outcome ->
  stops_at_refusal env calls (c :: new) outcome.
Proof.
  intros Hc Hnew [|i] c' e Hl Hr.
  - cbn in Hl. injection Hl as <-. cbn [take] in Hr. rewrite app_nil_r in Hr. congruence.
  - cbn [lookup list_lookup] in Hl. cbn [take] in Hr.
    replace (calls ++ c :: take i new) with ((calls ++ [c]) ++ take i new) in Hr
      by (now rewrite <- app_assoc).
    destruct (Hnew i c' e Hl Hr) as [L R]. cbn [length]. split; [lia | exact R].
Qed.

Lemma stops_last_raise {A} env calls c e :
  refusal env calls c = Some e ->
  stops_at_refusal (A := A) env calls [c] (Raise e).
Proof.
  intros Hc [|i] c' e' Hl Hr.
  - cbn in Hl. injection Hl as <-. cbn [take] in Hr. rewrite app_nil_r in Hr.
    split; [reflexivity | congruence].
  - destruct i; discriminate Hl.
Qed.

(** an outcome without exception: no call was refused *)
Lemma stops_ok_no_refusal {A} env calls new (a : A) :
  stops_at_refusal env calls new (Ok a) ->
  forall i c, new !! i = Some c -> refusal env (calls ++ take i new) c = None.
Proof.
  intros H i c Hl. destruct (refusal env _ c) as [e|] eqn:E; [|reflexivity].
  destruct (H i c e Hl E) as [_ R]. discriminate R.
Qed.

(** one more call after calls that all went through *)
Lemma stops_app_last {A B} env calls new c (a : A) (outcome : result B) :
  stops_at_refusal env calls new (Ok a) ->
  stops_at_refusal env (calls ++ new) [c] outcome ->
  stops_at_refusal env calls (new ++ [c]) outcome.
Proof.
  intros Hnew Hc i c' e Hl Hr.
  destruct (Nat.lt_trichotomy i (length new)) as [Hlt|[Heq|Hgt]].
  - rewrite lookup_app_l in Hl by assumption.
    rewrite take_app_le in Hr by lia.
    rewrite (stops_ok_no_refusal env calls new a Hnew i c' Hl) in Hr. discriminate.
  - subst i. rewrite list_lookup_middle in Hl by reflexivity. injection Hl as <-.
    rewrite take_app_length in Hr.
    destruct (Hc 0%nat c e eq_refl) as [_ R].
    { cbn [take]. now rewrite app_nil_r. }
    split; [rewrite length_app; cbn [length]; lia | exact R].
  - rewrite lookup_ge_None_2 in Hl; [discriminate|].
    rewrite length_app. cbn [length]. lia.
Qed.

Ltac use_answer :=
  cbn [refusal raised];
  repeat match goal with H : ?x = _ |- context [?x] => rewrite H end;
  reflexivity.

Ltac stops :=
  repeat (apply stops_cons_ok; [use_answer|]);
  first [apply stops_nil | apply stops_last_raise; use_answer].

Ltac own_handle :=
  let c := fresh "c" in let fh' := fresh "fh'" in
  let Hin := fresh "Hin" in let Hc := fresh "Hc" in
  intros c fh' Hin Hc; cbn [In] in Hin;
  repeat (destruct Hin as [<-|Hin]; [cbn [call_handle] in Hc; congruence|]);
  contradiction.

Ltac load_leaf :=
  eexists; split; [repeat rewrite <- app_assoc; cbn [app]; reflexivity|];
  split; [eexists; reflexivity|];
  split; [try discriminate; try reflexivity|];
  split; [reflexivity|];
  split; [stops | own_handle].

Ltac load_leaf_nil :=
  exists []; split; [now rewrite app_nil_r|];
  split; [eexists; reflexivity|];
  split; [discriminate|];
  split; [reflexivity|];
  split; [apply stops_nil | intros ? ? []].

(** [load] on a channel that has a handle *)
Lemma load_calls_opened MPI env domain dtype order header_offset self calls fh :
  handler self = Some fh ->
  exists new,
    snd (snd (load MPI env domain dtype order header_offset (self, calls))) = calls ++ new /\
    map call_kind new `prefix_of` load_sequence true /\
    (is_Ok (fst (load MPI env domain dtype order header_offset (self, calls))) = true ->
     map call_kind new = load_sequence true) /\
    fst (snd (load MPI env domain dtype order header_offset (self, calls))) = self /\
    stops_at_refusal env calls new
      (fst (load MPI env domain dtype order header_offset (self, calls))) /\
    (forall c fh', In c new -> call_handle c = Some fh' -> fh' = fh).
Proof.
  intros Eh.
  cbv beta iota zeta delta [load iobind get_self lift ret extern the_handler fst snd].
  rewrite Eh.
  destruct (decompose (decomposition self) domain) as [[[sizes subsizes] starts]|e];
    [|load_leaf_nil].
  destruct dtype as [char|]; [|load_leaf_nil].
  destruct (__dtype_to_mpi MPI char) as [etype|e]; [|load_leaf_nil].
  destruct (String.eqb (upper order) "C"); [|load_leaf_nil].
  cbv beta iota zeta delta [fst snd].
  destruct (Create_subarray env calls etype sizes subsizes starts (ORDER_C MPI))
    as [ft|e] eqn:E1; [|load_leaf].
  destruct (Commit env _ ft) as [[]|e] eqn:E2; [|load_leaf].
  rewrite Eh.
  destruct (Get_position env _ fh) as [position|e] eqn:E3; [|load_leaf].
  destruct (py_add (radd env) position header_offset) as [pos|e]; [|load_leaf].
  destruct (Set_view env _ fh pos etype ft) as [[]|e] eqn:E4; [|load_leaf].
  destruct (numpy_empty env subsizes (NumpyType char) (upper order)) as [arr|e];
    [|load_leaf].
  destruct (Read_all env _ fh arr) as [a|e] eqn:E5; load_leaf.
Qed.

Lemma sequence_no_open new k :
  map call_kind new ++ k = load_sequence true ->
  forall c, In c new -> call_kind c <> 0%nat.
Proof.
  intros Hk c Hc E.
  assert (Hin : In (call_kind c) (load_sequence true)).
  { rewrite <- Hk. apply in_or_app. left. now apply in_map. }
  rewrite E in Hin. cbn [load_sequence In] in Hin.
  repeat (destruct Hin as [Hin|Hin]; [discriminate Hin|]). exact Hin.
Qed.

(** [load] issues its calls in one fixed order: the read-only [File.Open]
    of the channel's file first and only on a channel without a handle,
    then [Create_subarray], [Commit], [Get_position], [Set_view], [Read_all].
    A call that raises is the last call and its exception is the outcome of
    [load]; an array is returned only after the whole sequence.  The calls on
    the file go to the channel's handle, [Close] is never called, and a
    channel that had a handle is left as it was. *)
Theorem load_call_sequence MPI env domain dtype order header_offset self calls :
  exists new,
    snd (snd (load MPI env domain dtype order header_offset (self, calls))) = calls ++ new /\
    map call_kind new `prefix_of` load_sequence (has_handler self) /\
    (is_Ok (fst (load MPI env domain dtype order header_offset (self, calls))) = true ->
     map call_kind new = load_sequence (has_handler self) /\
     has_handler (fst (snd (load MPI env domain dtype order header_offset (self, calls))))
       = true) /\
    (has_handler self = true ->
     fst (snd (load MPI env domain dtype order header_offset (self, calls))) = self) /\
    stops_at_refusal env calls new
      (fst (load MPI env domain dtype order header_offset (self, calls))) /\
    (forall c fh, In c new -> call_handle c = Some fh ->
       handler (fst (snd (load MPI env domain dtype order header_offset (self, calls))))
       = Some fh) /\
    (forall c, In c new -> call_kind c = 0%nat ->
       c = Call_File_Open (filename self) (MODE_RDONLY MPI)).
Proof.
  unfold has_handler.
  destruct (handler self) as [fh|] eqn:Eh.
  - destruct (load_calls_opened MPI env domain dtype order header_offset self calls fh Eh)
      as (new & E & P & F & S & St & Hd).
    exists new. split; [exact E|]. split; [exact P|]. split; [|split; [|split; [|split]]].
    + intros HOk. split; [now apply F|]. now rewrite S, Eh.
    + intros _. exact S.
    + exact St.
    + intros c fh' Hin Hc. rewrite S, Eh. f_equal. symmetry. exact (Hd c fh' Hin Hc).
    + intros c Hin Hk. destruct P as [k Hk']. symmetry in Hk'.
      now destruct (sequence_no_open new k Hk' c Hin).
  - rewrite load_unopened by assumption.
    destruct (File_Open env calls (filename self) (MODE_RDONLY MPI)) as [fh|e] eqn:Eo.
    + destruct (load_calls_opened MPI env domain dtype order header_offset
                  (set_handler self (Some fh))
                  (calls ++ [Call_File_Open (filename self) (MODE_RDONLY MPI)]) fh eq_refl)
        as (new & E & P & F & S & St & Hd).
      exists (Call_File_Open (filename self) (MODE_RDONLY MPI) :: new).
      split; [rewrite E, <- app_assoc; reflexivity|].
      split; [|split; [|split; [|split; [|split]]]].
      * destruct P as [k Hk]. exists k. cbn [map call_kind load_sequence app] in *.
        now rewrite Hk.
      * intros HOk. split.
        -- cbn [map call_kind load_sequence] in *. now rewrite (F HOk).
        -- now rewrite S.
      * discriminate.
      * apply stops_cons_ok; [cbn [refusal raised]; now rewrite Eo | exact St].
      * intros c fh' [<-|Hin] Hc; [discriminate Hc|].
        rewrite S. cbn [handler set_handler]. f_equal. symmetry. exact (Hd c fh' Hin Hc).
      * intros c [<-|Hin] Hk; [reflexivity|].
        destruct P as [k Hk']. symmetry in Hk'.
        now destruct (sequence_no_open new k Hk' c Hin).
    + exists [Call_File_Open (filename self) (MODE_RDONLY MPI)].
      split; [reflexivity|]. split; [|split; [|split; [|split; [|split]]]].
      * now exists [1; 2; 3; 4; 5]%nat.
      * discriminate.
      * discriminate.
      * apply stops_last_raise. cbn [refusal raised]. now rewrite Eo.
      * intros c fh' [<-|[]] Hc. discriminate Hc.
      * intros c [<-|[]] _. reflexivity.
Qed.



(** A [dtype] that is not of a numpy type is refused with
    [NotImplementedError] once the decomposition has succeeded, whatever the
    order; on a channel with a handle no call has been made by then. *)
Theorem load_foreign_dtype MPI env domain order header_offset self calls :
  handler self <> None ->
  is_Ok (decompose (decomposition self) domain) = true ->
  load MPI env domain ForeignType order header_offset (self, calls)
  = (Raise NotImplementedError, (self, calls)).
Proof.
  intros Hh HOk.
  cbv beta iota zeta delta [load iobind get_self lift ret fst snd].
  destruct (handler self) as [fh|]; [|congruence].
  destruct (decompose (decomposition self) domain) as [[[sizes subsizes] starts]|e];
    [reflexivity | discriminate].
Qed.

Lemma load_foreign_dtype_witness :
  handler (set_handler closed_channel (Some 0%nat)) <> None /\
  is_Ok (decompose (decomposition (set_handler closed_channel (Some 0%nat))) [VInt 8]) = true /\
  load mpich obliging_env [VInt 8] ForeignType "F" (VInt 128)
    (set_handler closed_channel (Some 0%nat), [])
  = (Raise NotImplementedError, (set_handler closed_channel (Some 0%nat), [])).
Proof.
  assert (H1 : handler (set_handler closed_channel (Some 0%nat)) <> None) by discriminate.
  assert (H2 : is_Ok (decompose (decomposition (set_handler closed_channel (Some 0%nat)))
                        [VInt 8]) = true) by reflexivity.
  split; [exact H1 | split; [exact H2|]].
  exact (load_foreign_dtype mpich obliging_env [VInt 8] "F" (VInt 128)
           (set_handler closed_channel (Some 0%nat)) [] H1 H2).
Defined.

(** With [None] or a string as header offset, as when the offset of the
    data is unknown, [load] raises [TypeError] once the file type has been
    created and committed and the position has been read: no view is set and
    nothing is read.  With an integer, or with a number of another type whose
    sum with the position succeeds, [Set_view] is the next call and gets the
    sum. *)
Theorem load_offset_none_or_string MPI env domain char order (header_offset : offset_arg)
    self calls fh sizes subsizes starts etype filetype position :
  handler self = Some fh ->
  decompose (decomposition self) domain = Ok (sizes, subsizes, starts) ->
  __dtype_to_mpi MPI char = Ok etype ->
  upper order = "C"%string ->
  Create_subarray env calls etype sizes subsizes starts (ORDER_C MPI) = Ok filetype ->
  Commit env (calls ++ [Call_Create_subarray etype sizes subsizes starts (ORDER_C MPI)])
    filetype = Ok tt ->
  Get_position env
    ((calls ++ [Call_Create_subarray etype sizes subsizes starts (ORDER_C MPI)])
     ++ [Call_Commit filetype]) fh = Ok position ->
  (header_offset = VNone \/ (exists s, header_offset = VStr s) ->
   load MPI env domain (NumpyType char) order header_offset (self, calls)
   = (Raise TypeError,
      (self, calls ++ [Call_Create_subarray etype sizes subsizes starts (ORDER_C MPI);
                       Call_Commit filetype; Call_Get_position fh]))) /\
  (forall pos,
     (exists z, header_offset = VInt z /\ pos = IntPosition (position + z)) \/
     (exists x sum, header_offset = OtherNumber x /\ radd env position x = Ok sum /\
                    pos = NumberPosition sum) ->
     exists rest,
       snd (snd (load MPI env domain (NumpyType char) order header_offset (self, calls)))
       = calls ++ [Call_Create_subarray etype sizes subsizes starts (ORDER_C MPI);
                   Call_Commit filetype; Call_Get_position fh;
                   Call_Set_view fh pos etype filetype] ++ rest).
Proof.
  intros Eh Ed Et Eo Ec Em Eg.
  cbv beta iota zeta delta [load iobind get_self lift ret extern the_handler fst snd].
  rewrite Eh, Ed, Et, Eo. cbn [String.eqb Ascii.eqb Bool.eqb].
  cbv beta iota zeta delta [fst snd]. rewrite Ec, Em, Eh, Eg.
  split.
  - intros [->|[s ->]]; cbn [py_add]; repeat rewrite <- app_assoc; reflexivity.
  - intros pos Hpos.
    assert (Ep : py_add (radd env) position header_offset = Ok pos).
    { destruct Hpos as [(z & -> & ->)|(x & sum & -> & Es & ->)]; cbn [py_add bind].
      - reflexivity.
      - now rewrite Es. }
    rewrite Ep.
    cbv beta iota.
    match goal with
    | |- context [Set_view env ?c fh pos etype filetype] =>
        destruct (Set_view env c fh pos etype filetype) as [[]|e]
    end; [|exists []; repeat rewrite <- app_assoc; reflexivity].
    destruct (numpy_empty env subsizes (NumpyType char) "C") as [local_array|e];
      eexists; cbv beta iota zeta; repeat rewrite <- app_assoc; cbn [app];
      reflexivity.
Qed.

Lemma load_offset_none_or_string_witness :
  load mpich obliging_env [VInt 8] (NumpyType "d") "c" VNone
    (set_handler closed_channel (Some 0%nat), [])
  = (Raise TypeError,
     (set_handler closed_channel (Some 0%nat),
      [] ++ [Call_Create_subarray 11%nat [VInt 8] [VInt 4] [VInt 0] (ORDER_C mpich);
             Call_Commit 1%nat; Call_Get_position 0%nat])).
Proof.
  exact (proj1 (load_offset_none_or_string mpich obliging_env [VInt 8] "d" "c" VNone
                  (set_handler closed_channel (Some 0%nat)) [] 0%nat
                  [VInt 8] [VInt 4] [VInt 0] 11%nat 1%nat 0
                  eq_refl eq_refl eq_refl eq_refl eq_refl eq_refl eq_refl)
           (or_introl eq_refl)).
Defined.

End ChannelCalls.

(** ** numpy.py on more than one process *)

Section NumpyParallel.

Import MpiIO.

Lemma MpiIO_init_fresh Compute_dims c filename mpiio :
  MpiIO__init__ Compute_dims (AComm c) filename = Ok mpiio ->
  MpiIO.filename mpiio = filename /\ handler mpiio = None.
Proof.
  unfold MpiIO__init__. intros E.
  destruct c as [sz rk [topo|]].
  - destruct (Cartesian__init__ Compute_dims _) as [x|e]; cbn [bind] in E; [|discriminate].
    injection E as <-. split; reflexivity.
  - cbn [Decomposition__init__ bind] in E. injection E as <-. split; reflexivity.
Qed.

(** [save] of numpy.py with a communicator of more than one process
    never returns and never writes: it raises after at most one call, the
    [File.Open] with [MODE_CREATE | MODE_WRONLY], which it leaves unclosed. *)
Theorem numpy_save_never_writes MPI env Compute_dims numpy_save array filename c calls :
  Get_size c <> 1 ->
  exists e new,
    Numpy.save MPI env Compute_dims numpy_save array filename (Some c) calls
      = (Raise e, calls ++ new) /\
    (new = [] \/
     new = [Call_File_Open filename (Z.lor (MODE_CREATE MPI) (MODE_WRONLY MPI))]).
Proof.
  intros Hs. unfold Numpy.save.
  destruct (Z.eqb_spec (Get_size c) 1) as [|_]; [contradiction|].
  destruct (MpiIO__init__ Compute_dims (AComm c) filename) as [mpiio|e] eqn:Ei.
  2:{ exists e, []. rewrite app_nil_r. split; [reflexivity | now left]. }
  destruct (MpiIO_init_fresh _ _ _ _ Ei) as [Ef _].
  unfold Numpy.run, numpy_save_open, iobind, lift.
  destruct (in_dec Z.eq_dec (Z.lor (MODE_CREATE MPI) (MODE_WRONLY MPI)) (listed_modes MPI))
    as [Hin|Hout].
  - rewrite file_open_listed by assumption. rewrite Ef.
    destruct (File_Open env calls filename _) as [fh|e]; cbn [fst snd].
    + eexists _, _. split; [reflexivity | now right].
    + eexists _, _. split; [reflexivity | now right].
  - rewrite file_open_unlisted by assumption. cbn [fst snd].
    exists ValueError, []. rewrite app_nil_r. split; [reflexivity | now left].
Qed.

Lemma numpy_save_never_writes_witness :
  Get_size two_processes <> 1 /\
  exists e new,
    Numpy.save mpich obliging_env (fun _ _ => Ok [2; 1]) (fun _ _ => Ok tt)
      {| shape := [VInt 3]; dtype := NumpyType "d"; order := "C"; data := [1; 2; 3] |}
      "a.npy" (Some two_processes) []
      = (Raise e, [] ++ new) /\
    (new = [] \/
     new = [Call_File_Open "a.npy" (Z.lor (MODE_CREATE mpich) (MODE_WRONLY mpich))]).
Proof.
  assert (H : Get_size two_processes <> 1) by (cbn; lia).
  split; [exact H|].
  exact (numpy_save_never_writes mpich obliging_env (fun _ _ => Ok [2; 1]) (fun _ _ => Ok tt)
           _ "a.npy" two_processes [] H).
Defined.

(** the three steps of the parallel [load] on a fresh object *)
Lemma numpy_load_steps MPI env metadata mpiio calls :
  handler mpiio = None ->
  Numpy.run mpiio calls
    (iobind (file_open MPI env (MODE_RDONLY MPI)) (fun _ =>
     iobind (MpiIO.load MPI env (header_shape metadata) (header_dtype metadata) "C"
               (_offset metadata)) (fun local_array =>
     iobind (file_close env) (fun _ => ret local_array))))
  = match File_Open env calls (filename mpiio) (MODE_RDONLY MPI) with
    | Raise e => (Raise e, calls ++ [Call_File_Open (filename mpiio) (MODE_RDONLY MPI)])
    | Ok fh =>
        let s := (set_handler mpiio (Some fh),
                  calls ++ [Call_File_Open (filename mpiio) (MODE_RDONLY MPI)]) in
        let r := MpiIO.load MPI env (header_shape metadata) (header_dtype metadata) "C"
                   (_offset metadata) s in
        match fst r with
        | Raise e => (Raise e, snd (snd r))
        | Ok local_array =>
            match Close env (snd (snd r)) fh with
            | Ok _ => (Ok local_array, snd (snd r) ++ [Call_Close fh])
            | Raise e => (Raise e, snd (snd r) ++ [Call_Close fh])
            end
        end
    end.
Proof.
  intros Hn. unfold Numpy.run. unfold iobind at 1.
  rewrite file_open_listed by apply rdonly_listed.
  destruct (File_Open env calls (filename mpiio) (MODE_RDONLY MPI)) as [fh|e];
    [|reflexivity].
  cbv zeta. unfold iobind at 1.
  destruct (load_calls_opened MPI env (header_shape metadata) (header_dtype metadata) "C"
              (_offset metadata) (set_handler mpiio (Some fh))
              (calls ++ [Call_File_Open (filename mpiio) (MODE_RDONLY MPI)]) fh eq_refl)
    as (new & E & _ & _ & S & _).
  destruct (MpiIO.load MPI env _ _ "C" _ _) as [[a|e] [self' calls']] eqn:El;
    cbn [fst snd] in *; [|reflexivity].
  subst self'.
  cbv beta iota zeta delta [iobind file_close the_handler get_self ret lift extern fst snd].
  cbn [handler set_handler].
  destruct (Close env calls' fh) as [[]|e]; reflexivity.
Qed.

(** The parallel [load] of numpy.py issues the read-only [File.Open] of
    the file, then [Create_subarray], [Commit], [Get_position], [Set_view],
    [Read_all], [Close] in this order.  A call that raises is the last call
    and its exception is the outcome; an array is returned only after the
    whole sequence.  The calls on the file go to the handle that the open
    returned. *)
Theorem numpy_load_calls MPI env Compute_dims head numpy_load filename c calls :
  Get_size c <> 1 ->
  exists new,
    snd (Numpy.load MPI env Compute_dims head numpy_load filename (Some c) calls)
      = calls ++ new /\
    map call_kind new `prefix_of` numpy_load_sequence /\
    (is_Ok (fst (Numpy.load MPI env Compute_dims head numpy_load filename (Some c) calls))
       = true ->
     map call_kind new = numpy_load_sequence) /\
    stops_at_refusal env calls new
      (fst (Numpy.load MPI env Compute_dims head numpy_load filename (Some c) calls)) /\
    (forall call, In call new -> call_kind call = 0%nat ->
       call = Call_File_Open filename (MODE_RDONLY MPI)) /\
    (forall call fh, In call new -> call_handle call = Some fh ->
       File_Open env calls filename (MODE_RDONLY MPI) = Ok fh).
Proof.
  intros Hs. unfold Numpy.load.
  destruct (Z.eqb_spec (Get_size c) 1) as [|_]; [contradiction|].
  destruct (head filename) as [metadata|e].
  2:{ exists []. cbn [fst snd]. rewrite app_nil_r. split; [reflexivity|].
      split; [now eexists|]. split; [discriminate|]. split; [apply stops_nil|].
      split; [intros ? [] | intros ? ? []]. }
  destruct (MpiIO__init__ Compute_dims (AComm c) filename) as [mpiio|e] eqn:Ei.
  2:{ exists []. cbn [fst snd]. rewrite app_nil_r. split; [reflexivity|].
      split; [now eexists|]. split; [discriminate|]. split; [apply stops_nil|].
      split; [intros ? [] | intros ? ? []]. }
  destruct (MpiIO_init_fresh _ _ _ _ Ei) as [Ef Hn].
  rewrite numpy_load_steps by assumption. rewrite Ef.
  destruct (File_Open env calls filename (MODE_RDONLY MPI)) as [fh|e] eqn:Eo.
  2:{ exists [Call_File_Open filename (MODE_RDONLY MPI)]. cbn [fst snd].
      split; [reflexivity|]. split; [now eexists|]. split; [discriminate|].
      split; [apply stops_last_raise; cbn [refusal raised]; now rewrite Eo|].
      split.
      - intros call [<-|[]] _. reflexivity.
      - intros call fh [<-|[]] Hc. discriminate Hc. }
  cbv zeta.
  destruct (load_calls_opened MPI env (header_shape metadata) (header_dtype metadata) "C"
              (_offset metadata) (set_handler mpiio (Some fh))
              (calls ++ [Call_File_Open filename (MODE_RDONLY MPI)]) fh eq_refl)
    as (new & E & [k Hk] & F & _ & St & Hd).
  assert (Hno : forall call, In call new -> call_kind call <> 0%nat).
  { apply (sequence_no_open new k). now symmetry. }
  cbn [load_sequence] in Hk, F.
  destruct (MpiIO.load MPI env _ _ "C" _ _) as [[a|e] [self' calls']] eqn:El;
    cbn [fst snd] in *.
  - specialize (F eq_refl). subst calls'.
    exists (Call_File_Open filename (MODE_RDONLY MPI) :: new ++ [Call_Close fh]).
    assert (K : map call_kind
                  (Call_File_Open filename (MODE_RDONLY MPI) :: new ++ [Call_Close fh])
                = numpy_load_sequence).
    { cbn [map call_kind]. rewrite map_app, F. reflexivity. }
    assert (Ho : forall call,
               In call (Call_File_Open filename (MODE_RDONLY MPI) :: new ++ [Call_Close fh]) ->
               call_kind call = 0%nat -> call = Call_File_Open filename (MODE_RDONLY MPI)).
    { intros call [<-|Hin] Hc; [reflexivity|].
      apply in_app_or in Hin. destruct Hin as [Hin|[<-|[]]].
      - now destruct (Hno call Hin).
      - discriminate Hc. }
    assert (Hh : forall call fh',
               In call (Call_File_Open filename (MODE_RDONLY MPI) :: new ++ [Call_Close fh]) ->
               call_handle call = Some fh' -> Ok (A := File) fh = Ok fh').
    { intros call fh' [<-|Hin] Hc; [discriminate Hc|].
      apply in_app_or in Hin. destruct Hin as [Hin|[<-|[]]].
      - f_equal. symmetry. exact (Hd call fh' Hin Hc).
      - cbn [call_handle] in Hc. congruence. }
    destruct (Close env _ fh) as [[]|e] eqn:Ec; cbn [fst snd];
      (split; [repeat rewrite <- app_assoc; reflexivity|]);
      (split; [rewrite K; now exists []|]);
      (split; [intros _; exact K|]);
      (split; [|split; [exact Ho | exact Hh]]).
    + apply stops_cons_ok; [cbn [refusal raised]; now rewrite Eo|].
      apply (stops_app_last env _ new (Call_Close fh) a); [exact St|].
      apply stops_cons_ok; [cbn [refusal raised]; now rewrite Ec | apply stops_nil].
    + apply stops_cons_ok; [cbn [refusal raised]; now rewrite Eo|].
      apply (stops_app_last env _ new (Call_Close fh) a); [exact St|].
      apply stops_last_raise. cbn [refusal raised]. now rewrite Ec.
  - subst calls'. exists (Call_File_Open filename (MODE_RDONLY MPI) :: new).
    split; [repeat rewrite <- app_assoc; reflexivity|].
    split; [|split; [discriminate|split; [|split]]].
    + exists (k ++ [6%nat]). cbn [map call_kind].
      change numpy_load_sequence with (0%nat :: [1; 2; 3; 4; 5]%nat ++ [6%nat]).
      rewrite Hk, <- app_assoc. reflexivity.
    + apply stops_cons_ok; [cbn [refusal raised]; now rewrite Eo | exact St].
    + intros call [<-|Hin] Hc; [reflexivity|]. now destruct (Hno call Hin).
    + intros call fh' [<-|Hin] Hc; [discriminate Hc|].
      f_equal. symmetry. exact (Hd call fh' Hin Hc).
Qed.

Lemma numpy_load_calls_witness :
  Get_size two_processes <> 1 /\
  exists new,
    snd (Numpy.load mpich obliging_env (fun _ _ => Ok [2; 1]) (fun _ => Ok header_3x4)
           (fun _ => Raise NotImplementedError) "a.npy" (Some two_processes) [])
      = [] ++ new /\
    map call_kind new `prefix_of` numpy_load_sequence /\
    (is_Ok (fst (Numpy.load mpich obliging_env (fun _ _ => Ok [2; 1])
                   (fun _ => Ok header_3x4) (fun _ => Raise NotImplementedError)
                   "a.npy" (Some two_processes) [])) = true ->
     map call_kind new = numpy_load_sequence) /\
    stops_at_refusal obliging_env [] new
      (fst (Numpy.load mpich obliging_env (fun _ _ => Ok [2; 1]) (fun _ => Ok header_3x4)
              (fun _ => Raise NotImplementedError) "a.npy" (Some two_processes) [])) /\
    (forall call, In call new -> call_kind call = 0%nat ->
       call = Call_File_Open "a.npy" (MODE_RDONLY mpich)) /\
    (forall call fh, In call new -> call_handle call = Some fh ->
       File_Open obliging_env [] "a.npy" (MODE_RDONLY mpich) = Ok fh).
Proof.
  assert (H : Get_size two_processes <> 1) by (cbn; lia).
  split; [exact H|].
  exact (numpy_load_calls mpich obliging_env (fun _ _ => Ok [2; 1]) (fun _ => Ok header_3x4)
           (fun _ => Raise NotImplementedError) "a.npy" two_processes [] H).
Defined.

(** When the file has been opened and [MpiIO.load] then raises, the
    parallel [load] of numpy.py raises the same exception and issues no
    [Close]: the handle stays open. *)
Theorem numpy_load_leaves_file_open MPI env Compute_dims head numpy_load filename c calls
    metadata mpiio fh :
  Get_size c <> 1 ->
  head filename = Ok metadata ->
  MpiIO__init__ Compute_dims (AComm c) filename = Ok mpiio ->
  File_Open env calls filename (MODE_RDONLY MPI) = Ok fh ->
  is_Ok (fst (MpiIO.load MPI env (header_shape metadata) (header_dtype metadata) "C"
                (_offset metadata)
                (set_handler mpiio (Some fh),
                 calls ++ [Call_File_Open filename (MODE_RDONLY MPI)]))) = false ->
  fst (Numpy.load MPI env Compute_dims head numpy_load filename (Some c) calls)
    = fst (MpiIO.load MPI env (header_shape metadata) (header_dtype metadata) "C"
             (_offset metadata)
             (set_handler mpiio (Some fh),
              calls ++ [Call_File_Open filename (MODE_RDONLY MPI)])) /\
  exists new,
    snd (Numpy.load MPI env Compute_dims head numpy_load filename (Some c) calls)
      = calls ++ Call_File_Open filename (MODE_RDONLY MPI) :: new /\
    forallb (fun call => negb (call_kind call =? 6)%nat) new = true.
Proof.
  intros Hs Eh Ei Eo Hfail. unfold Numpy.load.
  destruct (Z.eqb_spec (Get_size c) 1) as [|_]; [contradiction|].
  rewrite Eh, Ei.
  destruct (MpiIO_init_fresh _ _ _ _ Ei) as [Ef Hn].
  rewrite numpy_load_steps by assumption. rewrite Ef, Eo. cbv zeta.
  destruct (load_calls_opened MPI env (header_shape metadata) (header_dtype metadata) "C"
              (_offset metadata) (set_handler mpiio (Some fh))
              (calls ++ [Call_File_Open filename (MODE_RDONLY MPI)]) fh eq_refl)
    as (new & E & [k Hk] & _ & _).
  destruct (MpiIO.load MPI env _ _ "C" _ _) as [[a|e] [self' calls']] eqn:El;
    cbn [fst snd is_Ok] in *; [discriminate|].
  split; [reflexivity|]. subst calls'. exists new.
  split; [now rewrite <- app_assoc|].
  apply forallb_forall. intros call Hc.
  assert (Hin : In (call_kind call) (load_sequence true)).
  { rewrite Hk. apply in_or_app. left. now apply in_map. }
  cbn [load_sequence In] in Hin.
  destruct Hin as [<-|[<-|[<-|[<-|[<-|[]]]]]]; reflexivity.
Qed.

Lemma numpy_load_leaves_file_open_witness :
  fst (Numpy.load mpich obliging_env (fun _ _ => Ok [2; 1]) (fun _ => Ok header_1x4)
         (fun _ => Raise NotImplementedError) "a.npy" (Some two_processes) [])
    = Raise ValueError /\
  exists new,
    snd (Numpy.load mpich obliging_env (fun _ _ => Ok [2; 1]) (fun _ => Ok header_1x4)
           (fun _ => Raise NotImplementedError) "a.npy" (Some two_processes) [])
      = [] ++ Call_File_Open "a.npy" (MODE_RDONLY mpich) :: new /\
    forallb (fun call => negb (call_kind call =? 6)%nat) new = true.
Proof.
  assert (H1 : Get_size two_processes <> 1) by (cbn; lia).
  exact (numpy_load_leaves_file_open mpich obliging_env (fun _ _ => Ok [2; 1])
           (fun _ => Ok header_1x4) (fun _ => Raise NotImplementedError)
           "a.npy" two_processes [] header_1x4
           {| decomposition := Linear {| Decomposition.size := 2; Decomposition.rank := 1 |};
              filename := "a.npy"; handler := None |}
           0%nat H1 eq_refl eq_refl eq_refl eq_refl).
Defined.

End NumpyParallel.

(** ** The header written by [_write_array_header] *)

Section HeaderLayout.

Lemma len_append s t : len (String.append s t) = len s + len t.
Proof.
  unfold len. induction s as [|c s IH].
  - change (String.append EmptyString t) with t. cbn [String.length]. lia.
  - change (String.append (String c s) t) with (String c (String.append s t)).
    cbn [String.length]. rewrite !Nat2Z.inj_succ. lia.
Qed.

Lemma len_spaces n : len (spaces n) = Z.of_nat n.
Proof.
  unfold len. induction n as [|n IH]; cbn [spaces String.length]; [reflexivity|].
  rewrite !Nat2Z.inj_succ. now rewrite IH.
Qed.

Lemma len_newline : len newline = 1.
Proof. reflexivity. Qed.


(** the two bytes of the length field read back as the number packed *)
Lemma struct_unpack_pack_H n field :
  struct_pack_H n = Return field ->
  struct_unpack_H field = Some n /\ len field = 2.
Proof.
  unfold struct_pack_H. intros E.
  destruct (Z.leb_spec 0 n) as [H0|]; [|discriminate].
  destruct (Z.leb_spec n 65535) as [H1|]; [|discriminate].
  cbn [andb] in E. injection E as <-. split; [|reflexivity].
  cbn [struct_unpack_H].
  pose proof (Z.mod_pos_bound n 256 ltac:(lia)) as Hm.
  assert (Hd : 0 <= n / 256 < 256).
  { split; [apply Z.div_pos; lia | apply Z.div_lt_upper_bound; lia]. }
  rewrite !N_ascii_embedding by lia.
  rewrite !Z2N.id by lia.
  pose proof (Z.div_mod n 256 ltac:(lia)). f_equal. lia.
Qed.

Variables ARRAY_ALIGN MAGIC_LEN : Z.
Variable magic : Z -> Z -> string.
Variable _filter_header : string -> string.
Variable Write : list string -> string -> result unit.

Hypothesis align_pos : 0 < ARRAY_ALIGN.
Hypothesis magic_len : len (magic 1 0) = MAGIC_LEN.

(** When [_write_array_header] returns, the version is (1, 0) and two
    writes were made: the magic string with the two-byte length field, and
    the filtered header text followed by between 1 and [ARRAY_ALIGN] spaces
    and a newline.  The length field holds the length of the second write,
    and the two writes together are a multiple of [ARRAY_ALIGN] long. *)
Theorem write_array_header_aligned d version written v written' :
  _write_array_header ARRAY_ALIGN MAGIC_LEN magic _filter_header Write d version written
    = (Return v, written') ->
  v = (1, 0) /\
  exists field pad,
    written' =
      written ++
        [ String.append (magic 1 0) field;
          String.append (_filter_header (header_text d))
            (String.append (spaces pad) newline) ] /\
    (1 <= Z.of_nat pad <= ARRAY_ALIGN) /\
    struct_unpack_H field
      = Some (len (String.append (_filter_header (header_text d))
                     (String.append (spaces pad) newline))) /\
    (len (String.append (magic 1 0) field)
     + len (String.append (_filter_header (header_text d))
              (String.append (spaces pad) newline))) mod ARRAY_ALIGN = 0 /\
    len (String.append (_filter_header (header_text d))
           (String.append (spaces pad) newline)) < 2 ^ 16.
Proof.
  unfold _write_array_header.
  set (header := _filter_header (header_text d)).
  set (hlen := len header + 1).
  destruct (Z.eqb_spec ARRAY_ALIGN 0) as [|_]; [lia|].
  set (padlen := ARRAY_ALIGN - (MAGIC_LEN + 2 + hlen) mod ARRAY_ALIGN).
  pose proof (Z.mod_pos_bound (MAGIC_LEN + 2 + hlen) ARRAY_ALIGN align_pos) as Hm.
  assert (Hp : 1 <= padlen <= ARRAY_ALIGN) by (unfold padlen; lia).
  destruct (Z.ltb_spec (hlen + padlen) (2 ^ 16)) as [Hlt|Hge].
  2:{ cbn [andb]. destruct (_ && _); discriminate. }
  destruct (version_in version (1, 0)); cbn [andb].
  2:{ destruct (_ && _); discriminate. }
  destruct (struct_pack_H (hlen + padlen)) as [field|e] eqn:Ef; [|discriminate].
  destruct (struct_unpack_pack_H _ _ Ef) as [Hu Hl].
  destruct (Write written _) as [[]|e]; [|discriminate].
  destruct (Write (written ++ _) _) as [[]|e]; [|discriminate].
  intros E. injection E as <- <-. split; [reflexivity|].
  exists field, (Z.to_nat padlen).
  assert (Lb : len (String.append header (String.append (spaces (Z.to_nat padlen)) newline))
               = hlen + padlen).
  { rewrite !len_append, len_spaces, len_newline, Z2Nat.id by lia. unfold hlen. lia. }
  split; [reflexivity|]. split; [rewrite Z2Nat.id by lia; exact Hp|].
  split; [now rewrite Lb|]. split; [|now rewrite Lb].
  rewrite Lb, len_append, magic_len, Hl.
  replace (MAGIC_LEN + 2 + (hlen + padlen))
    with ((MAGIC_LEN + 2 + hlen) mod ARRAY_ALIGN + padlen
          + ARRAY_ALIGN * ((MAGIC_LEN + 2 + hlen) / ARRAY_ALIGN)).
  2:{ pose proof (Z.div_mod (MAGIC_LEN + 2 + hlen) ARRAY_ALIGN ltac:(lia)). lia. }
  replace ((MAGIC_LEN + 2 + hlen) mod ARRAY_ALIGN + padlen) with (ARRAY_ALIGN * 1)
    by (unfold padlen; lia).
  rewrite <- Z.mul_add_distr_l, Z.mul_comm. apply Z.mod_mul. lia.
Qed.



End HeaderLayout.

Lemma write_array_header_aligned_witness :
  0 < 64 /\ len (numpy_magic 1 0) = 8 /\
  exists field pad,
    snd (_write_array_header 64 8 numpy_magic (fun s => s) (fun _ _ => Ok tt)
           header_dict_3x4 None [])
    = [] ++ [ String.append (numpy_magic 1 0) field;
              String.append (header_text header_dict_3x4)
                (String.append (spaces pad) newline) ] /\
    (1 <= Z.of_nat pad <= 64) /\
    struct_unpack_H field
      = Some (len (String.append (header_text header_dict_3x4)
                     (String.append (spaces pad) newline))).
Proof.
  assert (H1 : 0 < 64) by lia.
  assert (H2 : len (numpy_magic 1 0) = 8) by reflexivity.
  split; [exact H1 | split; [exact H2|]].
  assert (E : _write_array_header 64 8 numpy_magic (fun s => s) (fun _ _ => Ok tt)
                header_dict_3x4 None []
              = (Return (1, 0),
                 snd (_write_array_header 64 8 numpy_magic (fun s => s) (fun _ _ => Ok tt)
                        header_dict_3x4 None []))) by (vm_compute; reflexivity).
  destruct (write_array_header_aligned 64 8 numpy_magic (fun s => s) (fun _ _ => Ok tt)
              H1 H2 header_dict_3x4 None [] (1, 0) _ E)
    as (_ & field & pad & A & B & C & _).
  exists field, pad. split; [exact A | split; [exact B | exact C]].
Defined.



(** ** [find_file] *)

Section FindFileProperties.

Variable path_exists : string -> bool.
Variable parent_listing : string -> found (list string).

Lemma prefix_append s t : String.prefix s (String.append s t) = true.
Proof.
  induction s as [|c s IH].
  - now destruct t.
  - change (String.append (String c s) t) with (String c (String.append s t)).
    cbn [String.prefix]. destruct (ascii_dec c c); [exact IH | congruence].
Qed.

Lemma prefix_refl s : String.prefix s s = true.
Proof.
  induction s as [|c s IH]; [reflexivity|].
  cbn [String.prefix]. destruct (ascii_dec c c); [exact IH | congruence].
Qed.

Lemma filter_none {A} (P : A -> bool) l :
  Forall (fun x => P x = false) l -> List.filter P l = [].
Proof.
  induction 1 as [|x l Hx _ IH]; [reflexivity|].
  cbn [List.filter]. now rewrite Hx.
Qed.

Lemma filter_one {A} (P : A -> bool) l j g :
  l !! j = Some g -> P g = true -> (1 <= length (List.filter P l))%nat.
Proof.
  revert j. induction l as [|x l IH]; intros j Hj Hg; [destruct j; discriminate Hj|].
  cbn [List.filter]. destruct j as [|j].
  - injection Hj as ->. rewrite Hg. cbn [length]. lia.
  - cbn in Hj. specialize (IH j Hj Hg). destruct (P x); cbn [length]; lia.
Qed.

Lemma filter_two {A} (P : A -> bool) l i j f g :
  (i < j)%nat -> l !! i = Some f -> l !! j = Some g -> P f = true -> P g = true ->
  (2 <= length (List.filter P l))%nat.
Proof.
  revert i j. induction l as [|x l IH]; intros i j Hij Hi Hj Hf Hg;
    [destruct i; discriminate Hi|].
  cbn [List.filter]. destruct j as [|j]; [lia|]. cbn in Hj. destruct i as [|i].
  - injection Hi as ->. rewrite Hf. cbn [length].
    pose proof (filter_one P l j g Hj Hg). lia.
  - cbn in Hi. assert (Hij' : (i < j)%nat) by lia.
    specialize (IH i j Hij' Hi Hj Hf Hg). destruct (P x); cbn [length]; lia.
Qed.

(** The name that [find_file] returns for a path string starts with that
    string: it is the string itself when the path exists, and otherwise the
    one entry of the parent directory that starts with it. *)
Theorem find_file_result filename file :
  find_file path_exists parent_listing (APath filename) = Found file ->
  String.prefix filename file = true /\
  (path_exists filename = true /\ file = filename \/
   path_exists filename = false /\
   exists listing,
     parent_listing filename = Found listing /\
     List.filter (String.prefix filename) listing = [file]).
Proof.
  unfold find_file. destruct (path_exists filename) eqn:Ee.
  - intros [= <-]. split; [apply prefix_refl | now left].
  - destruct (parent_listing filename) as [listing| | |] eqn:El; try discriminate.
    destruct (List.filter _ listing) as [|f [|g rest]] eqn:Ef; try discriminate.
    intros [= <-]. split.
    + assert (Hin : In f (List.filter (String.prefix filename) listing))
        by (rewrite Ef; now left).
      apply filter_In in Hin. tauto.
    + right. split; [reflexivity|]. now exists listing.
Qed.

(** A missing path is completed by any name that starts with it, with or
    without a dot after it, when that name is the only entry of the parent
    directory that starts with the path, wherever it stands among the
    entries; with no such entry the outcome is [FileNotFoundError]; with
    two or more such entries, at whatever positions, the outcome is
    [ValueError]. *)
Theorem find_file_completion filename :
  path_exists filename = false ->
  (forall suffix,
      parent_listing filename = Found [String.append filename suffix] ->
      find_file path_exists parent_listing (APath filename)
      = Found (String.append filename suffix)) /\
  (forall listing,
      parent_listing filename = Found listing ->
      Forall (fun f => String.prefix filename f = false) listing ->
      find_file path_exists parent_listing (APath filename) = FileNotFoundError) /\
  (forall before file after,
      parent_listing filename = Found (before ++ file :: after) ->
      String.prefix filename file = true ->
      Forall (fun f => String.prefix filename f = false) before ->
      Forall (fun f => String.prefix filename f = false) after ->
      find_file path_exists parent_listing (APath filename) = Found file) /\
  (forall listing,
      parent_listing filename = Found listing ->
      (2 <= length (List.filter (String.prefix filename) listing))%nat ->
      find_file path_exists parent_listing (APath filename) = Failed ValueError) /\
  (forall listing i j f g,
      parent_listing filename = Found listing ->
      (i < j)%nat -> listing !! i = Some f -> listing !! j = Some g ->
      String.prefix filename f = true -> String.prefix filename g = true ->
      find_file path_exists parent_listing (APath filename) = Failed ValueError).
Proof.
  intros Ee. unfold find_file. rewrite Ee.
  assert (Two : forall listing,
            (2 <= length (List.filter (String.prefix filename) listing))%nat ->
            match List.filter (String.prefix filename) listing with
            | [] => FileNotFoundError
            | [file] => Found file
            | _ :: _ :: _ => Failed ValueError
            end = Failed ValueError).
  { intros listing Hl.
    destruct (List.filter _ listing) as [|f [|g rest]]; cbn [length] in Hl;
      [lia | lia | reflexivity]. }
  split; [|split; [|split; [|split]]].
  - intros suffix ->. cbn [List.filter]. now rewrite prefix_append.
  - intros listing -> Hnone. now rewrite filter_none.
  - intros before file after -> Hf Hb Ha.
    rewrite List.filter_app. cbn [List.filter]. rewrite Hf.
    rewrite (filter_none _ before Hb), (filter_none _ after Ha). reflexivity.
  - intros listing -> Hl. now apply Two.
  - intros listing i j f g -> Hij Hi Hj Hf Hg. apply Two.
    exact (filter_two _ listing i j f g Hij Hi Hj Hf Hg).
Qed.

End FindFileProperties.

Lemma find_file_result_witness :
  String.prefix "conf" "conf.npy" = true.
Proof.
  refine (proj1 (find_file_result (fun _ => false)
                   (fun _ => Found ["a.txt"; "conf.npy"]%string) "conf" "conf.npy" _)).
  reflexivity.
Defined.

Lemma find_file_completion_witness :
  find_file (fun _ => false) (fun _ => Found ["a.txt"; "data.npy"; "b.txt"; "database"]%string)
    (APath "data")
  = Failed ValueError.
Proof.
  refine (proj2 (proj2 (proj2 (proj2
            (find_file_completion (fun _ => false)
               (fun _ => Found ["a.txt"; "data.npy"; "b.txt"; "database"]%string) "data" _))))
            _ 1%nat 3%nat "data.npy"%string "database"%string _ _ _ _ _ _);
    try reflexivity.
  lia.
Defined.

(** ** The channel from its constructor on *)

Section ChannelLife.

Import MpiIO.

(** The validation of [file_open] accepts exactly the nine listed modes:
    such a mode goes to [File.Open] unchanged, every other value is refused
    with [ValueError] and the channel is left as it was. *)
Theorem file_mode_validation MPI env mode self calls :
  (__check_file_mode MPI mode = Ok mode <-> In mode (listed_modes MPI)) /\
  (__check_file_mode MPI mode = Raise ValueError <-> ~ In mode (listed_modes MPI)) /\
  (In mode (listed_modes MPI) ->
   snd (snd (file_open MPI env mode (self, calls)))
     = calls ++ [Call_File_Open (filename self) mode]) /\
  (~ In mode (listed_modes MPI) ->
   file_open MPI env mode (self, calls) = (Raise ValueError, (self, calls))).
Proof.
  destruct (in_dec Z.eq_dec mode (listed_modes MPI)) as [Hin|Hout].
  - pose proof (check_file_mode_listed MPI mode Hin) as E.
    split; [|split; [|split]].
    + tauto.
    + rewrite E. split; [discriminate | contradiction].
    + intros _. rewrite file_open_listed by assumption.
      now destruct (File_Open env calls (filename self) mode).
    + contradiction.
  - pose proof (check_file_mode_unlisted MPI mode Hout) as E.
    split; [|split; [|split]].
    + rewrite E. split; [discriminate | contradiction].
    + tauto.
    + contradiction.
    + intros _. now apply file_open_unlisted.
Qed.

(** A channel built on a Cartesian communicator whose grid, as
    [MPI.Compute_dims] lays it out, has more axes than the domain never
    loads an array. *)
Theorem load_on_grid_of_higher_rank Compute_dims c topo dims filename domain :
  cartcomm c = Some topo ->
  Compute_dims (Get_size c) (Get_dim topo) = Ok dims ->
  (length domain < length dims)%nat ->
  exists mpiio,
    MpiIO__init__ Compute_dims (AComm c) filename = Ok mpiio /\
    handler mpiio = None /\
    forall MPI env dtype order header_offset calls,
      is_Ok (fst (load MPI env domain dtype order header_offset (mpiio, calls))) = false.
Proof.
  intros Et Ed Hlen. destruct c as [sz rk ct]. cbn [cartcomm Get_size] in *. subst ct.
  unfold MpiIO__init__, Cartesian__init__, Decomposition__init__.
  cbn [bind Decomposition.size Decomposition.rank Get_size Get_rank].
  rewrite Ed. cbn [bind].
  eexists. split; [reflexivity|]. split; [reflexivity|].
  intros MPI env dtype order header_offset calls.
  rewrite load_unopened by reflexivity.
  destruct (File_Open env calls _ _) as [fh|e]; [|reflexivity].
  cbv beta iota zeta delta [load iobind get_self lift ret fst snd].
  cbn [handler set_handler decomposition decompose].
  pose proof (cartesian_decompose_short
                {| Cartesian.base := {| Decomposition.size := sz; Decomposition.rank := rk |};
                   Cartesian.dims := dims; Cartesian.coords := Get_coords topo rk |}
                domain Hlen) as H.
  destruct (Cartesian.decompose _ domain); [discriminate H | reflexivity].
Qed.

Lemma load_on_grid_of_higher_rank_witness :
  exists mpiio,
    MpiIO__init__ (fun _ _ => Ok [2; 2])
      (AComm {| Get_size := 4; Get_rank := 3;
                cartcomm := Some {| Get_dim := 2; Get_coords := fun _ => [1; 1] |} |})
      "a.npy" = Ok mpiio /\
    handler mpiio = None /\
    forall MPI env dtype order header_offset calls,
      is_Ok (fst (load MPI env [VInt 8] dtype order header_offset (mpiio, calls))) = false.
Proof.
  refine (load_on_grid_of_higher_rank (fun _ _ => Ok [2; 2])
            {| Get_size := 4; Get_rank := 3;
               cartcomm := Some {| Get_dim := 2; Get_coords := fun _ => [1; 1] |} |}
            {| Get_dim := 2; Get_coords := fun _ => [1; 1] |} [2; 2] "a.npy" [VInt 8]
            eq_refl eq_refl _).
  cbn [length]. lia.
Defined.

End ChannelLife.
